(** * ReMidt Renovasjon: the API client and the data coordinator

    A shallow embedding of [custom_components/remidt_renovasjon/api.py] and
    [coordinator.py] (with the two entity readers of [sensor.py] and
    [binary_sensor.py] that guard the queries), followed by the properties
    of the specification that were checked against it.

    Conventions of the embedding:
    - a Python [str] is a Rocq [string], read as the UTF-8 bytes of the text;
    - a Python call that may raise returns an [outcome]: [Ok v] or
      [Raise e], and [try]/[except] is [try_except] over the class
      hierarchy;
    - the network, the clock and [datetime.fromisoformat] are inputs of the
      functions that use them;
    - logging calls are left out: they do not change any value. *)

From Stdlib Require Import ZArith List String Ascii Bool Lia Sorted Permutation.
From Stdlib Require DecimalString.
Import ListNotations.

Local Open Scope string_scope.
Local Open Scope Z_scope.

(* ================================================================== *)
(** ** Exceptions *)

(** The classes that the two modules name, raise or let through, with the
    classes that stand between them and [BaseException]. *)
Inductive exn_class : Set :=
  | BaseException | Exception | CancelledError
  | LookupError | KeyError | ValueError | AttributeError | TypeError
  | OSError | TimeoutError
  | ClientError | ClientResponseError | ContentTypeError
  | ClientConnectionError | ServerTimeoutError
  | RenovasjonApiError | RenovasjonConnectionError
  | RenovasjonAddressNotFoundError
  | HomeAssistantError | UpdateFailed.

Scheme Equality for exn_class.

(** Direct base classes, as the [class] statements give them
    (api.py lines 22-31 for the three client exceptions). *)
Definition bases (c : exn_class) : list exn_class :=
  match c with
  | BaseException => []
  | Exception => [BaseException]
  | CancelledError => [BaseException]
  | LookupError => [Exception]
  | KeyError => [LookupError]
  | ValueError => [Exception]
  | AttributeError => [Exception]
  | TypeError => [Exception]
  | OSError => [Exception]
  | TimeoutError => [OSError]
  | ClientError => [Exception]
  | ClientResponseError => [ClientError]
  | ContentTypeError => [ClientResponseError]
  | ClientConnectionError => [ClientError]
  | ServerTimeoutError => [ClientConnectionError; TimeoutError]
  | RenovasjonApiError => [Exception]
  | RenovasjonConnectionError => [RenovasjonApiError]
  | RenovasjonAddressNotFoundError => [RenovasjonApiError]
  | HomeAssistantError => [Exception]
  | UpdateFailed => [HomeAssistantError]
  end.

Fixpoint issubclass_upto (fuel : nat) (c d : exn_class) : bool :=
  exn_class_beq c d ||
  match fuel with
  | O => false
  | S fuel' => existsb (fun b => issubclass_upto fuel' b d) (bases c)
  end.

(** The hierarchy above is five levels deep. *)
Definition issubclass (c d : exn_class) : bool := issubclass_upto 6 c d.

(** An exception object: its class, [str(err)], and the two attributes of
    [ClientResponseError] that [_request] reads. *)
Record exn : Set := mkExn
  { exn_cls : exn_class;
    exn_str : string;
    exn_status : Z;
    exn_message : string }.

Definition new_exn (c : exn_class) (msg : string) : exn :=
  mkExn c msg 0 "".

Definition isinstance (e : exn) (c : exn_class) : bool :=
  issubclass (exn_cls e) c.

Inductive outcome (A : Type) : Type :=
  | Ok (a : A)
  | Raise (e : exn).
Arguments Ok {A} a.
Arguments Raise {A} e.

Definition bind {A B : Type} (m : outcome A) (k : A -> outcome B) : outcome B :=
  match m with
  | Ok a => k a
  | Raise e => Raise e
  end.

Notation "x <- m ;; k" := (bind m (fun x => k))
  (at level 61, m at next level, right associativity).

(** [try: body / except (c1, c2, ...) as err: handler / ...]: the first
    clause one of whose classes the exception is an instance of runs. *)
Fixpoint dispatch {A : Type} (e : exn)
    (handlers : list (list exn_class * (exn -> outcome A))) : outcome A :=
  match handlers with
  | [] => Raise e
  | (classes, handler) :: rest =>
      if existsb (isinstance e) classes then handler e else dispatch e rest
  end.

Definition try_except {A : Type} (body : outcome A)
    (handlers : list (list exn_class * (exn -> outcome A))) : outcome A :=
  match body with
  | Ok a => Ok a
  | Raise e => dispatch e handlers
  end.

(** The class of the exception a call ends with, if it raises. *)
Definition raised {A : Type} (r : outcome A) : option exn_class :=
  match r with
  | Ok _ => None
  | Raise e => Some (exn_cls e)
  end.

(* ================================================================== *)
(** ** JSON values and the dict operations used on them *)

(** What [response.json()] returns.  Numbers are the integers; an object
    is the list of its members (a key occurs once). *)
#[local] Set Warnings "-register-all".
Inductive json : Type :=
  | JNull
  | JBool (b : bool)
  | JInt (n : Z)
  | JStr (s : string)
  | JList (l : list json)
  | JObj (members : list (string * json)).
#[local] Set Warnings "register-all".

Fixpoint assoc (k : string) (members : list (string * json)) : option json :=
  match members with
  | [] => None
  | (k', v) :: rest => if String.eqb k k' then Some v else assoc k rest
  end.

(** [data[k]] for a string [k]: only a dict can be indexed by a string. *)
Definition getitem (data : json) (k : string) : outcome json :=
  match data with
  | JObj members =>
      match assoc k members with
      | Some v => Ok v
      | None => Raise (new_exn KeyError ("'" ++ k ++ "'"))
      end
  | _ => Raise (new_exn TypeError "indices must be integers or object is not subscriptable")
  end.

(** [data.get(k, default)]: only a dict has the method. *)
Definition get (data : json) (k : string) (default : json) : outcome json :=
  match data with
  | JObj members =>
      match assoc k members with
      | Some v => Ok v
      | None => Ok default
      end
  | _ => Raise (new_exn AttributeError "object has no attribute 'get'")
  end.

Fixpoint chars (s : string) : list json :=
  match s with
  | EmptyString => []
  | String c s' => JStr (String c EmptyString) :: chars s'
  end.

(** [for item in v]: a list gives its elements, a dict its keys, a string
    its characters; nothing else can be iterated. *)
Definition iter (v : json) : outcome (list json) :=
  match v with
  | JList l => Ok l
  | JObj members => Ok (map (fun kv => JStr (fst kv)) members)
  | JStr s => Ok (chars s)
  | _ => Raise (new_exn TypeError "object is not iterable")
  end.

(** [s.replace(old, new)] for a one-character [old]. *)
Fixpoint replace (old : ascii) (new : string) (s : string) : string :=
  match s with
  | EmptyString => EmptyString
  | String c s' =>
      if Ascii.eqb c old then new ++ replace old new s'
      else String c (replace old new s')
  end.

(** [date_str.replace("Z", "+00:00")]: only a [str] has this method. *)
Definition str_replace (v : json) (old : ascii) (new : string) : outcome string :=
  match v with
  | JStr s => Ok (replace old new s)
  | _ => Raise (new_exn AttributeError "object has no attribute 'replace'")
  end.

(** [str(n)] for an [int]. *)
Definition str_of_int (n : Z) : string :=
  DecimalString.NilZero.string_of_int (Z.to_int n).

(* ================================================================== *)
(** ** Dates and datetimes *)

(** [datetime.date]: a calendar day.  Python orders dates as the tuples
    [(year, month, day)] and subtracts them through [toordinal]. *)
Record date : Set := mkDate
  { year : Z;
    month : Z;
    day : Z }.

Definition _is_leap (y : Z) : bool :=
  (y mod 4 =? 0) && (negb (y mod 100 =? 0) || (y mod 400 =? 0)).

Definition _days_before_year (y : Z) : Z :=
  let y' := y - 1 in
  y' * 365 + y' / 4 - y' / 100 + y' / 400.

Definition _DAYS_IN_MONTH : list Z :=
  [-1; 31; 28; 31; 30; 31; 30; 31; 31; 30; 31; 30; 31].

Definition _DAYS_BEFORE_MONTH : list Z :=
  [-1; 0; 31; 59; 90; 120; 151; 181; 212; 243; 273; 304; 334].

Definition _days_in_month (y m : Z) : Z :=
  if (m =? 2) && _is_leap y then 29
  else nth (Z.to_nat m) _DAYS_IN_MONTH 0.

Definition _days_before_month (y m : Z) : Z :=
  nth (Z.to_nat m) _DAYS_BEFORE_MONTH 0
  + (if (2 <? m) && _is_leap y then 1 else 0).

Definition toordinal (d : date) : Z :=
  _days_before_year (year d) + _days_before_month (year d) (month d) + day d.

(** The values the [date] constructor accepts. *)
Definition valid_date (d : date) : Prop :=
  1 <= year d <= 9999 /\ 1 <= month d <= 12 /\
  1 <= day d <= _days_in_month (year d) (month d).

(** Lexicographic [<] on integer tuples, as Python compares them. *)
Fixpoint tuple_lt (a b : list Z) : bool :=
  match a, b with
  | x :: a', y :: b' => (x <? y) || ((x =? y) && tuple_lt a' b')
  | [], _ :: _ => true
  | _, [] => false
  end.

Definition date_tuple (d : date) : list Z := [year d; month d; day d].

Definition date_lt (a b : date) : bool := tuple_lt (date_tuple a) (date_tuple b).
(** [a >= b] is [not (a < b)] on a total order. *)
Definition date_ge (a b : date) : bool := negb (date_lt a b).
Definition date_le (a b : date) : bool := negb (date_lt b a).
Definition date_eq (a b : date) : bool :=
  (year a =? year b) && (month a =? month b) && (day a =? day b).

(** [(a - b).days]. *)
Definition date_sub_days (a b : date) : Z := toordinal a - toordinal b.

(** [datetime.datetime]: the wall-clock fields and, for an aware value, the
    UTC offset of its [tzinfo] in microseconds ([None] for a naive one). *)
Record datetime : Set := mkDatetime
  { dt_date : date;
    hour : Z;
    minute : Z;
    second : Z;
    microsecond : Z;
    utcoffset : option Z }.

(** [dt.date()]: the calendar day of the wall-clock fields. *)
Definition datetime_date (dt : datetime) : date := dt_date dt.

Definition valid_datetime (dt : datetime) : Prop :=
  valid_date (dt_date dt) /\ 0 <= hour dt < 24 /\ 0 <= minute dt < 60 /\
  0 <= second dt < 60 /\ 0 <= microsecond dt < 1000000.

Definition datetime_tuple (dt : datetime) : list Z :=
  (date_tuple (dt_date dt) ++ [hour dt; minute dt; second dt; microsecond dt])%list.

(** Microseconds from the start of day 0 to the wall-clock reading. *)
Definition wall_micro (dt : datetime) : Z :=
  ((toordinal (dt_date dt) * 86400
    + hour dt * 3600 + minute dt * 60 + second dt) * 1000000)
  + microsecond dt.

(** [a < b] on datetimes: the fields are compared when both are naive or
    carry the same offset; two different offsets compare the instants
    ([a - b] taking the offsets into account); a naive against an aware
    value raises [TypeError]. *)
Definition datetime_lt (a b : datetime) : outcome bool :=
  match utcoffset a, utcoffset b with
  | None, None => Ok (tuple_lt (datetime_tuple a) (datetime_tuple b))
  | Some oa, Some ob =>
      if oa =? ob then Ok (tuple_lt (datetime_tuple a) (datetime_tuple b))
      else Ok (wall_micro a - oa <? wall_micro b - ob)
  | _, _ =>
      Raise (new_exn TypeError
               "can't compare offset-naive and offset-aware datetimes")
  end.

(** [a <= b] evaluates to [True] (as in the suite's
    [disposals[i].date <= disposals[i + 1].date]). *)
Definition datetime_le (a b : datetime) : Prop := datetime_lt b a = Ok false.

(** [l.sort(key=key)] with datetime keys: a stable sort that compares keys
    with [<] only, and raises what a comparison raises.  It is written as
    the stable insertion sort; on keys that [<] orders it returns the list
    any stable sort returns, and on a list that mixes naive and aware keys
    it raises [TypeError], as the built-in sort does. *)
Section Sort.
Context {A : Type} (key : A -> datetime).

Fixpoint insert (x : A) (l : list A) : outcome (list A) :=
  match l with
  | [] => Ok [x]
  | y :: l' =>
      b <- datetime_lt (key y) (key x) ;;
      if b then (r <- insert x l' ;; Ok (y :: r)) else Ok (x :: y :: l')
  end.

Fixpoint sort (l : list A) : outcome (list A) :=
  match l with
  | [] => Ok []
  | x :: l' => s <- sort l' ;; insert x s
  end.
End Sort.

(* ================================================================== *)
(** ** const.py *)

Definition API_BASE_URL : string := "https://kalender.renovasjonsportal.no/api".

(** [API_ADDRESS_SEARCH.format(query=query)]. *)
Definition API_ADDRESS_SEARCH (query : string) : string :=
  API_BASE_URL ++ "/address/" ++ query.

(** [API_ADDRESS_DETAILS.format(address_id=address_id)]. *)
Definition API_ADDRESS_DETAILS (address_id : string) : string :=
  API_BASE_URL ++ "/address/" ++ address_id ++ "/details".

(* ================================================================== *)
(** ** [urllib.parse.quote] *)

Definition _ALWAYS_SAFE : string :=
  "ABCDEFGHIJKLMNOPQRSTUVWXYZabcdefghijklmnopqrstuvwxyz0123456789_.-~".

Fixpoint mem (c : ascii) (s : string) : bool :=
  match s with
  | EmptyString => false
  | String c' s' => Ascii.eqb c c' || mem c s'
  end.

Definition hex_digit (n : nat) : ascii :=
  nth n (list_ascii_of_string "0123456789ABCDEF") "0"%char.

(** ['%{:02X}'.format(b)]. *)
Definition percent (b : ascii) : string :=
  let n := nat_of_ascii b in
  String "%" (String (hex_digit (n / 16)) (String (hex_digit (n mod 16)) EmptyString)).

(** The quoter of [quote_from_bytes]: a byte of [_ALWAYS_SAFE] or of
    [safe] stands for itself, any other byte becomes [%XX]. *)
Definition quoter (safe : string) (b : ascii) : string :=
  if mem b (_ALWAYS_SAFE ++ safe) then String b EmptyString else percent b.

Fixpoint quote (s : string) (safe : string) : string :=
  match s with
  | EmptyString => EmptyString
  | String b s' => quoter safe b ++ quote s' safe
  end.

(* ================================================================== *)
(** ** api.py *)

(** What [session.get(url, timeout=..., headers=...)] is called with. *)
Record request : Set := mkRequest
  { url : string;
    timeout_total : Z;
    headers : list (string * string) }.

(** The response object: its status line and what [await response.json()]
    gives. *)
Record response : Type := mkResponse
  { status : Z;
    reason : string;
    json_body : outcome json }.

(** The session: for each request, the response it yields or the exception
    the transport raises. *)
Definition ClientSession : Type := request -> outcome response.

(** [response.raise_for_status()]: aiohttp raises [ClientResponseError]
    with the status and reason when the status is 400 or above (the
    suite's [create_mock_response] does the same). *)
Definition raise_for_status (r : response) : outcome unit :=
  if 400 <=? status r
  then Raise (mkExn ClientResponseError
                (str_of_int (status r) ++ ", message='" ++ reason r ++ "'")
                (status r) (reason r))
  else Ok tt.

Definition REQUEST_TIMEOUT : Z := 30.

Definition _request (session : ClientSession) (url : string) : outcome json :=
  try_except
    (response <- session (mkRequest url REQUEST_TIMEOUT
                            [("Accept", "application/json");
                             ("User-Agent", "HomeAssistant/Renovasjon")]) ;;
     _ <- raise_for_status response ;;
     json_body response)
    [ ([TimeoutError], fun err =>
         Raise (new_exn RenovasjonConnectionError
                  "Timeout connecting to Renovasjonsportal API"));
      ([ClientResponseError], fun err =>
         if exn_status err =? 404
         then Raise (new_exn RenovasjonAddressNotFoundError "Address not found")
         else Raise (new_exn RenovasjonApiError
                       ("API error: " ++ str_of_int (exn_status err)
                        ++ " " ++ exn_message err)));
      ([ClientError], fun err =>
         Raise (new_exn RenovasjonConnectionError
                  ("Connection error: " ++ exn_str err))) ].

Module AddressSearchResult.
Record t : Type := mk
  { id : json;
    title : json;
    municipality : json }.

Definition from_dict (data : json) : outcome t :=
  id <- getitem data "id" ;;
  title <- getitem data "title" ;;
  municipality <- get data "subTitle" (JStr "") ;;
  Ok (mk id title municipality).
End AddressSearchResult.

Module WasteDisposal.
(** The fields hold what the response item held: the dataclass does not
    check its annotations ([fraction: str], [description: str | None],
    [symbol_id: int]). *)
Record t : Type := mk
  { date : datetime;
    fraction : json;
    description : json;
    symbol_id : json }.

Section FromDict.
(** [datetime.fromisoformat]: [None] stands for [ValueError]. *)
Variable fromisoformat : string -> option datetime.

Definition parse_date (s : string) : outcome datetime :=
  match fromisoformat s with
  | Some dt => Ok dt
  | None => Raise (new_exn ValueError ("Invalid isoformat string: '" ++ s ++ "'"))
  end.

Definition from_dict (data : json) : outcome t :=
  date_str <- getitem data "date" ;;
  replaced <- str_replace date_str "Z"%char "+00:00" ;;
  date <- parse_date replaced ;;
  fraction <- getitem data "fraction" ;;
  description <- get data "description" JNull ;;
  symbol_id <- get data "symbolId" (JInt 0) ;;
  Ok (mk date fraction description symbol_id).
End FromDict.
End WasteDisposal.

(** *** The dict built by [get_disposals_by_fraction] *)

(** The value a key is hashed and compared by: [True == 1] and
    [False == 0] are one key; lists and dicts cannot be keys. *)
Inductive hkey : Set :=
  | HNone
  | HNum (n : Z)
  | HStr (s : string).

Definition hkey_eqb (a b : hkey) : bool :=
  match a, b with
  | HNone, HNone => true
  | HNum n, HNum m => n =? m
  | HStr s, HStr t => String.eqb s t
  | _, _ => false
  end.

Definition key_of (k : json) : option hkey :=
  match k with
  | JNull => Some HNone
  | JBool b => Some (HNum (if b then 1 else 0))
  | JInt n => Some (HNum n)
  | JStr s => Some (HStr s)
  | JList _ | JObj _ => None
  end.

Definition hash (k : json) : outcome hkey :=
  match key_of k with
  | Some h => Ok h
  | None => Raise (new_exn TypeError "unhashable type")
  end.

(** Entries in insertion order, each with the key object it was inserted
    under. *)
Definition dict (V : Type) : Type := list (json * V).

Definition is_key (h : hkey) (k : json) : bool :=
  match key_of k with
  | Some h' => hkey_eqb h h'
  | None => false
  end.

Fixpoint lookup {V : Type} (h : hkey) (d : dict V) : option V :=
  match d with
  | [] => None
  | (k, v) :: rest => if is_key h k then Some v else lookup h rest
  end.

Fixpoint store {V : Type} (h : hkey) (k : json) (v : V) (d : dict V) : dict V :=
  match d with
  | [] => [(k, v)]
  | (k', v') :: rest =>
      if is_key h k' then (k', v) :: rest else (k', v') :: store h k v rest
  end.

(** [k in d]. *)
Definition dict_contains {V : Type} (d : dict V) (k : json) : outcome bool :=
  h <- hash k ;;
  Ok (match lookup h d with Some _ => true | None => false end).

(** [d[k]]. *)
Definition dict_getitem {V : Type} (d : dict V) (k : json) : outcome V :=
  h <- hash k ;;
  match lookup h d with
  | Some v => Ok v
  | None => Raise (new_exn KeyError "key")
  end.

(** [d[k] = v]. *)
Definition dict_setitem {V : Type} (d : dict V) (k : json) (v : V)
  : outcome (dict V) :=
  h <- hash k ;;
  Ok (store h k v d).

(** [d.get(k, default)] for a [str] key. *)
Definition dict_get {V : Type} (d : dict V) (k : string) (default : V) : V :=
  match lookup (HStr k) d with
  | Some v => v
  | None => default
  end.

Section Client.
Variable fromisoformat : string -> option datetime.
Variable session : ClientSession.

(** [for item in items: results.append(AddressSearchResult.from_dict(item))]. *)
Fixpoint search_results (items : list json)
  : outcome (list AddressSearchResult.t) :=
  match items with
  | [] => Ok []
  | item :: rest =>
      r <- AddressSearchResult.from_dict item ;;
      rs <- search_results rest ;;
      Ok (r :: rs)
  end.

Definition search_address (query : string)
  : outcome (list AddressSearchResult.t) :=
  let encoded_query := quote query "" in
  let url := API_ADDRESS_SEARCH encoded_query in
  data <- _request session url ;;
  found <- get data "searchResults" (JList []) ;;
  items <- iter found ;;
  results <- search_results items ;;
  alternate <- get data "alternateSearchResults" (JList []) ;;
  items' <- iter alternate ;;
  results' <- search_results items' ;;
  Ok (results ++ results')%list.

(** The body of the loop of [get_disposals] (lines 183-186): an item
    whose mapping raises [KeyError] or [ValueError] adds nothing; any
    other exception leaves the loop. *)
Definition parse_item (item : json) : outcome (list WasteDisposal.t) :=
  try_except (d <- WasteDisposal.from_dict fromisoformat item ;; Ok [d])
    [ ([KeyError; ValueError], fun err => Ok []) ].

Fixpoint parse_disposals (items : list json)
  : outcome (list WasteDisposal.t) :=
  match items with
  | [] => Ok []
  | item :: rest =>
      parsed <- parse_item item ;;
      others <- parse_disposals rest ;;
      Ok (parsed ++ others)%list
  end.

Definition get_disposals (address_id : string)
  : outcome (list WasteDisposal.t) :=
  let url := API_ADDRESS_DETAILS address_id in
  data <- _request session url ;;
  listed <- get data "disposals" (JList []) ;;
  items <- iter listed ;;
  disposals <- parse_disposals items ;;
  sort WasteDisposal.date disposals.

(** The body of the loop of [get_disposals_by_fraction] (lines 207-209). *)
Definition add_disposal (by_fraction : dict (list WasteDisposal.t))
    (disposal : WasteDisposal.t) : outcome (dict (list WasteDisposal.t)) :=
  present <- dict_contains by_fraction (WasteDisposal.fraction disposal) ;;
  by_fraction <-
    (if negb present
     then dict_setitem by_fraction (WasteDisposal.fraction disposal) []
     else Ok by_fraction) ;;
  bucket <- dict_getitem by_fraction (WasteDisposal.fraction disposal) ;;
  dict_setitem by_fraction (WasteDisposal.fraction disposal)
    (bucket ++ [disposal])%list.

Fixpoint group_disposals (disposals : list WasteDisposal.t)
    (by_fraction : dict (list WasteDisposal.t))
  : outcome (dict (list WasteDisposal.t)) :=
  match disposals with
  | [] => Ok by_fraction
  | disposal :: rest =>
      by_fraction <- add_disposal by_fraction disposal ;;
      group_disposals rest by_fraction
  end.

Definition get_disposals_by_fraction (address_id : string)
  : outcome (dict (list WasteDisposal.t)) :=
  disposals <- get_disposals address_id ;;
  group_disposals disposals [].
End Client.

(* ================================================================== *)
(** ** coordinator.py *)

(** [RenovasjonData]: the snapshot. *)
Record RenovasjonData : Type := mkRenovasjonData
  { address_id : string;
    address_name : string;
    municipality : string;
    disposals_by_fraction : dict (list WasteDisposal.t);
    last_update : datetime }.

(** [RenovasjonData.__init__]; [now] is what [datetime.now()] reads. *)
Definition RenovasjonData_init (address_id address_name municipality : string)
    (disposals_by_fraction : dict (list WasteDisposal.t)) (now : datetime)
  : RenovasjonData :=
  mkRenovasjonData address_id address_name municipality
    disposals_by_fraction now.

Definition fractions (self : RenovasjonData) : list json :=
  map fst (disposals_by_fraction self).

(** [disposal.date.date() >= now.date()]. *)
Definition on_or_after (now : datetime) (disposal : WasteDisposal.t) : bool :=
  date_ge (datetime_date (WasteDisposal.date disposal)) (datetime_date now).

Fixpoint first_on_or_after (now : datetime) (disposals : list WasteDisposal.t)
  : option WasteDisposal.t :=
  match disposals with
  | [] => None
  | disposal :: rest =>
      if on_or_after now disposal then Some disposal
      else first_on_or_after now rest
  end.

Definition get_next_disposal (self : RenovasjonData) (fraction : string)
    (now : datetime) : option WasteDisposal.t :=
  let disposals := dict_get (disposals_by_fraction self) fraction [] in
  first_on_or_after now disposals.

(** [l[:limit]]: a negative [limit] counts from the end. *)
Definition slice_to {A : Type} (l : list A) (limit : Z) : list A :=
  if 0 <=? limit then firstn (Z.to_nat limit) l
  else firstn (Z.to_nat (Z.of_nat (List.length l) + limit)) l.

Definition get_upcoming_disposals (self : RenovasjonData) (fraction : string)
    (limit : Z) (now : datetime) : list WasteDisposal.t :=
  let disposals := dict_get (disposals_by_fraction self) fraction [] in
  let upcoming := filter (on_or_after now) disposals in
  slice_to upcoming limit.

(** [now] is the reading of [datetime.now()] inside [get_next_disposal],
    [today] the later reading of [date.today()]. *)
Definition get_days_until (self : RenovasjonData) (fraction : string)
    (now : datetime) (today : date) : option Z :=
  match get_next_disposal self fraction now with
  | None => None
  | Some next_disposal =>
      Some (date_sub_days (datetime_date (WasteDisposal.date next_disposal)) today)
  end.

(** The coordinator object: the three attributes set by [__init__] and the
    two the host base class keeps ([data] is [None] until a refresh has
    succeeded). *)
Record RenovasjonCoordinator : Type := mkCoordinator
  { _address_id : string;
    _address_name : string;
    _municipality : string;
    data : option RenovasjonData;
    last_exception : option exn }.

(** A method that can read and write the attributes of [self]. *)
Definition method (A : Type) : Type :=
  RenovasjonCoordinator -> outcome A * RenovasjonCoordinator.

Section Coordinator.
Variable fromisoformat : string -> option datetime.

(** [session] is the network at the time of the call, [now] the clock. *)
Definition _async_update_data (session : ClientSession) (now : datetime)
  : method RenovasjonData :=
  fun self =>
    (try_except
       (disposals_by_fraction <-
          get_disposals_by_fraction fromisoformat session (_address_id self) ;;
        Ok (RenovasjonData_init (_address_id self) (_address_name self)
              (_municipality self) disposals_by_fraction now))
       [ ([RenovasjonConnectionError], fun err =>
            Raise (new_exn UpdateFailed ("Connection error: " ++ exn_str err)));
         ([RenovasjonApiError], fun err =>
            Raise (new_exn UpdateFailed ("API error: " ++ exn_str err)));
         ([Exception], fun err =>
            Raise (new_exn UpdateFailed ("Unexpected error: " ++ exn_str err))) ],
     self).

(** Modelled from the spec: the refresh primitive of the host's
    [DataUpdateCoordinator] base class, which is not part of the
    repository.  Section 4.2: a successful refresh replaces the held
    snapshot; a failed one leaves it and records the error. *)
Definition async_refresh (session : ClientSession) (now : datetime)
    (self : RenovasjonCoordinator) : RenovasjonCoordinator :=
  let (result, self) := _async_update_data session now self in
  match result with
  | Ok snapshot =>
      mkCoordinator (_address_id self) (_address_name self)
        (_municipality self) (Some snapshot) None
  | Raise err =>
      mkCoordinator (_address_id self) (_address_name self)
        (_municipality self) (data self) (Some err)
  end.
End Coordinator.

(** [RenovasjonCoordinator.__init__]: nothing is held yet. *)
Definition RenovasjonCoordinator_init (address_id address_name municipality : string)
  : RenovasjonCoordinator :=
  mkCoordinator address_id address_name municipality None None.

(** [self.coordinator.data.<method>(...)]: [None] has no such attribute. *)
Definition call_on_data {A : Type} (coordinator : RenovasjonCoordinator)
    (query : RenovasjonData -> A) : outcome A :=
  match data coordinator with
  | Some snapshot => Ok (query snapshot)
  | None => Raise (new_exn AttributeError "'NoneType' object has no attribute")
  end.

(** ** The readers of sensor.py and binary_sensor.py *)

(** [RenovasjonSensor.native_value] (sensor.py lines 98-108). *)
Definition native_value (coordinator : RenovasjonCoordinator)
    (_fraction : string) (now : datetime) : outcome (option date) :=
  match data coordinator with
  | None => Ok None
  | Some _ =>
      next_disposal <-
        call_on_data coordinator (fun d => get_next_disposal d _fraction now) ;;
      match next_disposal with
      | None => Ok None
      | Some disposal => Ok (Some (datetime_date (WasteDisposal.date disposal)))
      end
  end.

(** [RenovasjonTodayBinarySensor.is_on] (binary_sensor.py lines 92-102). *)
Definition is_on (coordinator : RenovasjonCoordinator)
    (_fraction : string) (now : datetime) (today : date)
  : outcome (option bool) :=
  match data coordinator with
  | None => Ok None
  | Some _ =>
      next_disposal <-
        call_on_data coordinator (fun d => get_next_disposal d _fraction now) ;;
      match next_disposal with
      | None => Ok (Some false)
      | Some disposal =>
          Ok (Some (date_eq (datetime_date (WasteDisposal.date disposal)) today))
      end
  end.

(* ================================================================== *)
(** ** An instance of [datetime.fromisoformat] for the examples *)

Definition digit (c : ascii) : option Z :=
  let n := Z.of_nat (nat_of_ascii c) in
  if (48 <=? n) && (n <=? 57) then Some (n - 48) else None.

Fixpoint read_digits (n : nat) (acc : Z) (s : string) : option (Z * string) :=
  match n with
  | O => Some (acc, s)
  | S n' =>
      match s with
      | EmptyString => None
      | String c s' =>
          match digit c with
          | Some v => read_digits n' (acc * 10 + v) s'
          | None => None
          end
      end
  end.

Definition expect (c : ascii) (s : string) : option string :=
  match s with
  | String c' s' => if Ascii.eqb c c' then Some s' else None
  | EmptyString => None
  end.

Definition obind {A B : Type} (m : option A) (k : A -> option B) : option B :=
  match m with
  | Some a => k a
  | None => None
  end.

(** [HH:MM:SS] and then nothing, [+HH:MM] or [-HH:MM]. *)
Definition read_time (d : date) (s : string) : option datetime :=
  obind (read_digits 2 0 s) (fun '(h, s) =>
  obind (expect ":" s) (fun s =>
  obind (read_digits 2 0 s) (fun '(mi, s) =>
  obind (expect ":" s) (fun s =>
  obind (read_digits 2 0 s) (fun '(sec, s) =>
  if (h <? 24) && (mi <? 60) && (sec <? 60) then
    match s with
    | EmptyString => Some (mkDatetime d h mi sec 0 None)
    | String sign s =>
        obind (if Ascii.eqb sign "+" then Some 1
               else if Ascii.eqb sign "-" then Some (-1) else None) (fun sg =>
        obind (read_digits 2 0 s) (fun '(oh, s) =>
        obind (expect ":" s) (fun s =>
        obind (read_digits 2 0 s) (fun '(om, s) =>
        match s with
        | EmptyString =>
            if (oh <? 24) && (om <? 60)
            then Some (mkDatetime d h mi sec 0
                         (Some (sg * (oh * 3600 + om * 60) * 1000000)))
            else None
        | _ => None
        end))))
    end
  else None))))).

(** Reads [YYYY-MM-DD], [YYYY-MM-DD?HH:MM:SS] ([?] any one character) and
    the latter followed by [+HH:MM] or [-HH:MM], with the values Python's
    function gives them; every other string is rejected here. *)
Definition fromisoformat_basic (s : string) : option datetime :=
  obind (read_digits 4 0 s) (fun '(y, s) =>
  obind (expect "-" s) (fun s =>
  obind (read_digits 2 0 s) (fun '(m, s) =>
  obind (expect "-" s) (fun s =>
  obind (read_digits 2 0 s) (fun '(d, s) =>
  if (1 <=? y) && (1 <=? m) && (m <=? 12) && (1 <=? d)
     && (d <=? _days_in_month y m)
  then
    match s with
    | EmptyString => Some (mkDatetime (mkDate y m d) 0 0 0 0 None)
    | String _ s => read_time (mkDate y m d) s
    end
  else None))))).

(** A session that answers every request with one response. *)
Definition always (r : response) : ClientSession := fun _ => Ok r.

(** A 200 response with the given body. *)
Definition ok_response (body : json) : response := mkResponse 200 "OK" (Ok body).

(** A response item as the service sends it. *)
Definition item (date_str fraction : string) : json :=
  JObj [("date", JStr date_str); ("description", JNull); ("type", JNull);
        ("fraction", JStr fraction); ("symbolId", JInt 0)].

(* ================================================================== *)
(** ** Vocabulary of the properties *)

(** The request [_request] sends for a URL. *)
Definition request_for (url : string) : request :=
  mkRequest url REQUEST_TIMEOUT
    [("Accept", "application/json"); ("User-Agent", "HomeAssistant/Renovasjon")].

(** Each disposal's date is [<=] the next one's. *)
Definition sorted_by_date (disposals : list WasteDisposal.t) : Prop :=
  Sorted (fun a b => datetime_le (WasteDisposal.date a) (WasteDisposal.date b))
    disposals.

(** The calendar day of a disposal, and lists whose days do not decrease. *)
Definition day_of (disposal : WasteDisposal.t) : date :=
  datetime_date (WasteDisposal.date disposal).

Definition sorted_by_day (disposals : list WasteDisposal.t) : Prop :=
  StronglySorted (fun a b => date_le (day_of a) (day_of b) = true) disposals.

(** All dates naive, or all dates aware: the lists [<] can order. *)
Definition is_aware (dt : datetime) : bool :=
  match utcoffset dt with Some _ => true | None => false end.

Definition same_awareness (disposals : list WasteDisposal.t) : Prop :=
  forall a b, In a disposals -> In b disposals ->
    is_aware (WasteDisposal.date a) = is_aware (WasteDisposal.date b).

(** The fraction can be a dict key. *)
Definition hashable_fraction (disposal : WasteDisposal.t) : Prop :=
  key_of (WasteDisposal.fraction disposal) <> None.

(** The disposals of a list that go under the key [h]. *)
Definition with_key (h : hkey) (disposals : list WasteDisposal.t)
  : list WasteDisposal.t :=
  filter (fun d => is_key h (WasteDisposal.fraction d)) disposals.

(** A month and a day of the calendar, in any year. *)
Definition in_calendar (d : date) : Prop :=
  1 <= month d <= 12 /\ 1 <= day d <= _days_in_month (year d) (month d).

(** The disposal's day is before the day of [now]. *)
Definition before_today (now : datetime) (disposal : WasteDisposal.t) : Prop :=
  on_or_after now disposal = false.

(** [1] in a leap year. *)
Definition leap_day (y : Z) : Z := if _is_leap y then 1 else 0.

(** The day after [d] in the calendar. *)
Definition next_day (d : date) : date :=
  if day d <? _days_in_month (year d) (month d)
  then mkDate (year d) (month d) (day d + 1)
  else if month d <? 12 then mkDate (year d) (month d + 1) 1
  else mkDate (year d + 1) 1 1.

Fixpoint days_later (n : nat) (d : date) : date :=
  match n with
  | O => d
  | S n' => next_day (days_later n' d)
  end.

(** The instant of a valid datetime on its own time line. *)
Definition instant (dt : datetime) : Z :=
  wall_micro dt - match utcoffset dt with Some o => o | None => 0 end.

(** The reserved characters of RFC 3986 (gen-delims and sub-delims) and the
    space. *)
Definition reserved : string := ":/?#[]@!$&'()*+,;= ".

(** The items of a list that [get_disposals] keeps, with their mappings. *)
Definition maps_to (fromisoformat : string -> option datetime)
    (item : json) (d : WasteDisposal.t) : Prop :=
  WasteDisposal.from_dict fromisoformat item = Ok d.

(** The mapping of an item stops with an exception the loop skips. *)
Definition skipped (fromisoformat : string -> option datetime) (item : json)
  : Prop :=
  raised (WasteDisposal.from_dict fromisoformat item) = Some KeyError \/
  raised (WasteDisposal.from_dict fromisoformat item) = Some ValueError.

(** The keys of the entries of a dict, as they are hashed. *)
Definition hashed_keys {V : Type} (d : dict V) : list (option hkey) :=
  map (fun entry => key_of (fst entry)) d.

(** The dict holds, under each key, the disposals seen so far that go
    under it, and nothing under any other key. *)
Definition groups (by_fraction : dict (list WasteDisposal.t))
    (seen : list WasteDisposal.t) : Prop :=
  NoDup (hashed_keys by_fraction) /\
  ~ In None (hashed_keys by_fraction) /\
  forall h, lookup h by_fraction
            = match with_key h seen with
              | [] => None
              | bucket => Some bucket
              end.

(** The value of a hexadecimal digit. *)
Definition unhex (c : ascii) : nat :=
  let n := nat_of_ascii c in
  if (48 <=? n)%nat && (n <=? 57)%nat then n - 48
  else if (65 <=? n)%nat && (n <=? 70)%nat then n - 55
  else if (97 <=? n)%nat && (n <=? 102)%nat then n - 87
  else 0.

(** Percent-decoding (RFC 3986, section 2.1): [%XY] stands for the byte
    with the hexadecimal value [XY]. *)
Fixpoint percent_decode (s : string) : string :=
  match s with
  | EmptyString => EmptyString
  | String c rest =>
      match rest with
      | String h1 (String h2 rest') =>
          if Ascii.eqb c "%"
          then String (ascii_of_nat (16 * unhex h1 + unhex h2))
                 (percent_decode rest')
          else String c (percent_decode rest)
      | _ => String c (percent_decode rest)
      end
  end.

(* ================================================================== *)
(** ** Inputs of the examples *)

Definition details_body (items : list json) : json :=
  JObj [("disposals", JList items)].

Definition serving (items : list json) : ClientSession :=
  always (ok_response (details_body items)).

Definition midnight (y m d : Z) : datetime :=
  mkDatetime (mkDate y m d) 0 0 0 0 None.

Definition half_past_ten (y m d : Z) : datetime :=
  mkDatetime (mkDate y m d) 10 30 0 0 None.

Definition disposal_on (y m d : Z) (fraction : string) : WasteDisposal.t :=
  WasteDisposal.mk (midnight y m d) (JStr fraction) JNull (JInt 0).

Definition snapshot_of (by_fraction : dict (list WasteDisposal.t))
  : RenovasjonData :=
  RenovasjonData_init "8c098e45" "Sigden 6" "Kristiansund kommune"
    by_fraction (midnight 2026 1 1).

(** A session whose every request times out. *)
Definition timing_out : ClientSession :=
  fun _ => Raise (new_exn TimeoutError "").

(** The prefix [_async_update_data] puts before the message of [err]. *)
Definition failure_prefix (err : exn) : string :=
  if isinstance err RenovasjonConnectionError then "Connection error: "
  else if isinstance err RenovasjonApiError then "API error: "
  else "Unexpected error: ".

Definition fresh_coordinator : RenovasjonCoordinator :=
  RenovasjonCoordinator_init "8c098e45" "Sigden 6" "Kristiansund kommune".

(* ================================================================== *)
(** ** sensor.py: the state attributes *)

Fixpoint zeros (n : nat) : string :=
  match n with
  | O => EmptyString
  | S n' => String "0" (zeros n')
  end.

(** ['%0<width>d' % n]: the sign counts in the width. *)
Definition zero_pad (width : nat) (n : Z) : string :=
  let digits := str_of_int (Z.abs n) in
  let sign := if n <? 0 then "-" else "" in
  sign ++ zeros (width - String.length sign - String.length digits) ++ digits.

(** [date.isoformat()]. *)
Definition date_isoformat (d : date) : string :=
  zero_pad 4 (year d) ++ "-" ++ zero_pad 2 (month d) ++ "-"
  ++ zero_pad 2 (day d).

(** [_format_offset]: [+HH:MM], then [:SS] and [.ffffff] when they are not
    zero. *)
Definition format_offset (offset : option Z) : string :=
  match offset with
  | None => ""
  | Some off =>
      let sign := if off <? 0 then "-" else "+" in
      let off := Z.abs off in
      let hh := off / 3600000000 in
      let mm := (off mod 3600000000) / 60000000 in
      let ss := (off mod 60000000) / 1000000 in
      let us := off mod 1000000 in
      sign ++ zero_pad 2 hh ++ ":" ++ zero_pad 2 mm
      ++ (if (ss =? 0) && (us =? 0) then ""
          else ":" ++ zero_pad 2 ss
               ++ (if us =? 0 then "" else "." ++ zero_pad 6 us))
  end.

(** [datetime.isoformat()]: the microseconds are written when they are
    not zero. *)
Definition datetime_isoformat (dt : datetime) : string :=
  date_isoformat (dt_date dt) ++ "T"
  ++ zero_pad 2 (hour dt) ++ ":" ++ zero_pad 2 (minute dt) ++ ":"
  ++ zero_pad 2 (second dt)
  ++ (if microsecond dt =? 0 then "" else "." ++ zero_pad 6 (microsecond dt))
  ++ format_offset (utcoffset dt).

Definition ATTR_DAYS_UNTIL : string := "days_until".
Definition ATTR_NEXT_DATE : string := "next_date".
Definition ATTR_UPCOMING_DATES : string := "upcoming_dates".
Definition ATTR_FRACTION : string := "fraction".
Definition ATTR_ADDRESS : string := "address".
Definition ATTR_MUNICIPALITY : string := "municipality".

(** [RenovasjonSensor.extra_state_attributes] (sensor.py lines 110-141).
    The dict is the list of its items in insertion order; every key is
    set once.  [now1] and [today] are the clock readings inside
    [get_days_until], [now2] the one inside [get_next_disposal] and [now3]
    the one inside [get_upcoming_disposals]. *)
Definition extra_state_attributes (coordinator : RenovasjonCoordinator)
    (_fraction : string) (now1 : datetime) (today : date)
    (now2 now3 : datetime) : list (string * json) :=
  let attrs := [(ATTR_FRACTION, JStr _fraction)] in
  match data coordinator with
  | None => attrs
  | Some data =>
      let attrs :=
        (attrs ++ [(ATTR_ADDRESS, JStr (address_name data));
                   (ATTR_MUNICIPALITY, JStr (municipality data))])%list in
      let attrs :=
        match get_days_until data _fraction now1 today with
        | Some days_until => (attrs ++ [(ATTR_DAYS_UNTIL, JInt days_until)])%list
        | None => attrs
        end in
      let attrs :=
        match get_next_disposal data _fraction now2 with
        | Some next_disposal =>
            (attrs ++ [(ATTR_NEXT_DATE,
                        JStr (datetime_isoformat
                                (WasteDisposal.date next_disposal)))])%list
        | None => attrs
        end in
      let upcoming := get_upcoming_disposals data _fraction 5 now3 in
      match upcoming with
      | [] => attrs
      | _ =>
          (attrs ++ [(ATTR_UPCOMING_DATES,
                      JList (map (fun d =>
                                    JStr (date_isoformat
                                            (datetime_date (WasteDisposal.date d))))
                               upcoming))])%list
      end
  end.

(** The keys of an attribute dict. *)
Definition attr_keys (attrs : list (string * json)) : list string :=
  map fst attrs.

(* ================================================================== *)
(** ** More vocabulary *)

(** The same wall-clock fields and the same offset. *)
Definition datetime_eqb (a b : datetime) : bool :=
  date_eq (dt_date a) (dt_date b) && (hour a =? hour b)
  && (minute a =? minute b) && (second a =? second b)
  && (microsecond a =? microsecond b)
  && match utcoffset a, utcoffset b with
     | Some oa, Some ob => oa =? ob
     | None, None => true
     | _, _ => false
     end.

(** The disposals of a list dated exactly [dt]. *)
Definition dated (dt : datetime) (disposals : list WasteDisposal.t)
  : list WasteDisposal.t :=
  filter (fun d => datetime_eqb (WasteDisposal.date d) dt) disposals.

(** The keys of a list in the order of their first occurrence, leaving out
    those of [seen]. *)
Fixpoint first_occurrences (seen : list hkey) (keys : list hkey) : list hkey :=
  match keys with
  | [] => []
  | k :: rest =>
      if existsb (hkey_eqb k) seen then first_occurrences seen rest
      else k :: first_occurrences (seen ++ [k])%list rest
  end.

(** The keys the fractions of a list hash to (unhashable ones left out). *)
Fixpoint fraction_keys (disposals : list WasteDisposal.t) : list hkey :=
  match disposals with
  | [] => []
  | d :: rest =>
      match key_of (WasteDisposal.fraction d) with
      | Some h => h :: fraction_keys rest
      | None => fraction_keys rest
      end
  end.

(** The number of disposals held by a dict. *)
Definition total_size (by_fraction : dict (list WasteDisposal.t)) : nat :=
  list_sum (map (fun entry => List.length (snd entry)) by_fraction).

(** A search response item with the three fields. *)
Definition address_item (id title subTitle : string) : json :=
  JObj [("id", JStr id); ("title", JStr title); ("subTitle", JStr subTitle)].

Definition search_body (found alternate : list json) : json :=
  JObj [("searchResults", JList found);
        ("alternateSearchResults", JList alternate)].

(* ================================================================== *)
(** * Properties *)

(** ** The exception monad *)

Lemma bind_Ok_inv {A B : Type} (m : outcome A) (k : A -> outcome B) (b : B) :
  bind m k = Ok b -> exists a, m = Ok a /\ k a = Ok b.
Proof.
  destruct m as [a | e]; simpl; intros H; [eauto | discriminate].
Qed.

Lemma bind_Raise_inv {A B : Type} (m : outcome A) (k : A -> outcome B) (e : exn) :
  bind m k = Raise e -> m = Raise e \/ exists a, m = Ok a /\ k a = Raise e.
Proof.
  destruct m as [a | e']; simpl; intros H; [right; eauto | left; congruence].
Qed.

(** ** The calendar *)

Lemma days_before_year_succ y :
  _days_before_year (y + 1) = _days_before_year y + 365 + leap_day y.
Proof.
  unfold _days_before_year, leap_day, _is_leap.
  replace (y + 1 - 1) with y by lia.
  destruct (Z.eqb_spec (y mod 4) 0), (Z.eqb_spec (y mod 100) 0),
    (Z.eqb_spec (y mod 400) 0); simpl;
    Z.div_mod_to_equations; lia.
Qed.

Lemma days_before_year_mono a b :
  a <= b -> _days_before_year a <= _days_before_year b.
Proof.
  unfold _days_before_year. intros H.
  Z.div_mod_to_equations. lia.
Qed.

Lemma month_cases m :
  1 <= m <= 12 ->
  m = 1 \/ m = 2 \/ m = 3 \/ m = 4 \/ m = 5 \/ m = 6 \/
  m = 7 \/ m = 8 \/ m = 9 \/ m = 10 \/ m = 11 \/ m = 12.
Proof. lia. Qed.

Ltac month_split m H :=
  destruct (month_cases m H) as
    [->|[->|[->|[->|[->|[->|[->|[->|[->|[->|[->| ->]]]]]]]]]]].

Lemma days_before_month_succ y m :
  1 <= m <= 11 ->
  _days_before_month y (m + 1) = _days_before_month y m + _days_in_month y m.
Proof.
  intros H. assert (H' : 1 <= m <= 12) by lia.
  unfold _days_before_month, _days_in_month.
  month_split m H'; try lia; destruct (_is_leap y); reflexivity.
Qed.

Lemma days_before_month_mono y m m' :
  1 <= m -> m < m' -> m' <= 12 ->
  _days_before_month y m + _days_in_month y m <= _days_before_month y m'.
Proof.
  intros H1 H2 H3.
  assert (Hm : 1 <= m <= 12) by lia. assert (Hm' : 1 <= m' <= 12) by lia.
  unfold _days_before_month, _days_in_month.
  month_split m Hm; month_split m' Hm'; try lia;
    destruct (_is_leap y); simpl; lia.
Qed.

Lemma days_in_year y m :
  1 <= m <= 12 ->
  0 <= _days_before_month y m /\
  _days_before_month y m + _days_in_month y m <= 365 + leap_day y.
Proof.
  intros H. unfold _days_before_month, _days_in_month, leap_day.
  month_split m H; destruct (_is_leap y); simpl; lia.
Qed.

Lemma valid_date_in_calendar d : valid_date d -> in_calendar d.
Proof. intros (_ & Hm & Hd). now split. Qed.

Lemma toordinal_next_day d :
  in_calendar d -> toordinal (next_day d) = toordinal d + 1.
Proof.
  intros (Hm & Hd). unfold next_day, toordinal.
  destruct (Z.ltb_spec (day d) (_days_in_month (year d) (month d))); simpl.
  - lia.
  - destruct (Z.ltb_spec (month d) 12); simpl.
    + rewrite days_before_month_succ by lia. lia.
    + assert (month d = 12) as E by lia. rewrite E in *.
      rewrite days_before_year_succ.
      unfold _days_before_month, _days_in_month, leap_day in *.
      destruct (_is_leap (year d)); simpl in *; lia.
Qed.

Lemma days_in_month_bounds y m : 1 <= m <= 12 -> 28 <= _days_in_month y m <= 31.
Proof.
  intros H. unfold _days_in_month.
  month_split m H; destruct (_is_leap y); simpl; lia.
Qed.

Lemma next_day_in_calendar d : in_calendar d -> in_calendar (next_day d).
Proof.
  intros (Hm & Hd). unfold next_day, in_calendar.
  destruct (Z.ltb_spec (day d) (_days_in_month (year d) (month d))); simpl;
    [lia|].
  destruct (Z.ltb_spec (month d) 12); simpl.
  - pose proof (days_in_month_bounds (year d) (month d + 1)). lia.
  - pose proof (days_in_month_bounds (year d + 1) 1). lia.
Qed.

Lemma days_later_in_calendar n d :
  in_calendar d -> in_calendar (days_later n d).
Proof.
  intros H. induction n as [| n IH]; [exact H|].
  simpl. now apply next_day_in_calendar.
Qed.

Lemma toordinal_days_later n d :
  in_calendar d -> toordinal (days_later n d) = toordinal d + Z.of_nat n.
Proof.
  intros H. induction n as [| n IH]; [simpl; lia|].
  cbn [days_later]. rewrite toordinal_next_day, IH by
    now apply days_later_in_calendar.
  lia.
Qed.

Lemma tuple_lt_cons x a y b :
  tuple_lt (x :: a) (y :: b) = true <-> x < y \/ (x = y /\ tuple_lt a b = true).
Proof.
  simpl. rewrite orb_true_iff, andb_true_iff, Z.ltb_lt, Z.eqb_eq. tauto.
Qed.

Lemma tuple_lt_nil : tuple_lt [] [] = true <-> False.
Proof. simpl. split; [discriminate | tauto]. Qed.

Lemma date_lt_spec a b :
  date_lt a b = true <->
  year a < year b \/
  (year a = year b /\ (month a < month b \/ (month a = month b /\ day a < day b))).
Proof.
  unfold date_lt, date_tuple.
  rewrite !tuple_lt_cons, tuple_lt_nil. tauto.
Qed.

Lemma date_lt_toordinal a b :
  valid_date a -> valid_date b -> date_lt a b = true -> toordinal a < toordinal b.
Proof.
  intros (Hya & Hma & Hda) (Hyb & Hmb & Hdb) H.
  apply date_lt_spec in H. unfold toordinal.
  destruct H as [H | (Ey & [H | (Em & H)])].
  - pose proof (days_in_year (year a) (month a) Hma).
    pose proof (days_in_year (year b) (month b) Hmb).
    pose proof (days_before_year_succ (year a)).
    pose proof (days_before_year_mono (year a + 1) (year b)). lia.
  - rewrite Ey in *.
    pose proof (days_before_month_mono (year b) (month a) (month b)). lia.
  - rewrite Ey, Em. lia.
Qed.

Lemma date_lt_next_day d : in_calendar d -> date_lt d (next_day d) = true.
Proof.
  intros (Hm & Hd). apply date_lt_spec. unfold next_day.
  destruct (Z.ltb_spec (day d) (_days_in_month (year d) (month d))); simpl;
    [lia|].
  destruct (Z.ltb_spec (month d) 12); simpl; lia.
Qed.

(** ** The order of datetimes *)

Lemma tuple_lt_asym a :
  forall b, List.length a = List.length b ->
    tuple_lt a b = true -> tuple_lt b a = false.
Proof.
  induction a as [| x a IH]; intros [| y b] L H; simpl in *; try discriminate.
  injection L as L.
  apply orb_true_iff in H. apply orb_false_iff.
  destruct H as [H | H].
  - apply Z.ltb_lt in H. split; [apply Z.ltb_ge; lia|].
    apply andb_false_iff. left. apply Z.eqb_neq. lia.
  - apply andb_true_iff in H as [E H]. apply Z.eqb_eq in E. subst y.
    split; [apply Z.ltb_irrefl|].
    rewrite Z.eqb_refl. simpl. now apply IH.
Qed.

Lemma datetime_tuple_length dt : List.length (datetime_tuple dt) = 7%nat.
Proof. reflexivity. Qed.

(** [y < x] evaluating to [True] makes [y <= x] evaluate to [True]. *)
Lemma datetime_lt_le a b : datetime_lt a b = Ok true -> datetime_le a b.
Proof.
  unfold datetime_le, datetime_lt.
  destruct (utcoffset a) as [oa |], (utcoffset b) as [ob |]; try discriminate.
  - rewrite (Z.eqb_sym ob oa).
    destruct (Z.eqb_spec oa ob); intros H; injection H as H.
    + f_equal. apply tuple_lt_asym; [now rewrite !datetime_tuple_length | exact H].
    + f_equal. apply Z.ltb_lt in H. apply Z.ltb_ge. lia.
  - intros H; injection H as H. f_equal.
    apply tuple_lt_asym; [now rewrite !datetime_tuple_length | exact H].
Qed.

Lemma datetime_tuple_lt_wall a b :
  valid_datetime a -> valid_datetime b ->
  tuple_lt (datetime_tuple a) (datetime_tuple b) = (wall_micro a <? wall_micro b).
Proof.
  intros (Va & Ha) (Vb & Hb).
  assert (Lab : date_lt (dt_date a) (dt_date b) = true ->
                toordinal (dt_date a) < toordinal (dt_date b))
    by now apply date_lt_toordinal.
  assert (Lba : date_lt (dt_date b) (dt_date a) = true ->
                toordinal (dt_date b) < toordinal (dt_date a))
    by now apply date_lt_toordinal.
  assert (Eq : year (dt_date a) = year (dt_date b) ->
               month (dt_date a) = month (dt_date b) ->
               day (dt_date a) = day (dt_date b) ->
               toordinal (dt_date a) = toordinal (dt_date b))
    by (unfold toordinal; intros -> -> ->; reflexivity).
  rewrite !date_lt_spec in Lab, Lba.
  unfold wall_micro.
  destruct (tuple_lt (datetime_tuple a) (datetime_tuple b)) eqn:T; symmetry.
  - apply Z.ltb_lt.
    unfold datetime_tuple, date_tuple in T. cbn [app] in T.
    rewrite !tuple_lt_cons, tuple_lt_nil in T. lia.
  - apply Z.ltb_ge.
    assert (N : ~ tuple_lt (datetime_tuple a) (datetime_tuple b) = true)
      by congruence.
    unfold datetime_tuple, date_tuple in N. cbn [app] in N.
    rewrite !tuple_lt_cons, tuple_lt_nil in N. lia.
Qed.

(** On valid datetimes of one awareness, [<] is the order of the instants. *)
Lemma datetime_lt_instant a b :
  valid_datetime a -> valid_datetime b -> is_aware a = is_aware b ->
  datetime_lt a b = Ok (instant a <? instant b).
Proof.
  intros Va Vb. unfold is_aware, datetime_lt, instant.
  destruct (utcoffset a) as [oa |], (utcoffset b) as [ob |]; try discriminate;
    intros _.
  - destruct (Z.eqb_spec oa ob) as [-> |]; [|reflexivity].
    rewrite datetime_tuple_lt_wall by assumption. f_equal.
    destruct (Z.ltb_spec (wall_micro a) (wall_micro b)); symmetry;
      [apply Z.ltb_lt | apply Z.ltb_ge]; lia.
  - rewrite datetime_tuple_lt_wall by assumption. now rewrite !Z.sub_0_r.
Qed.

Lemma datetime_le_aware a b : datetime_le a b -> is_aware a = is_aware b.
Proof.
  unfold datetime_le, datetime_lt, is_aware.
  destruct (utcoffset a), (utcoffset b); intros H; try discriminate; reflexivity.
Qed.

Lemma datetime_le_instant a b :
  valid_datetime a -> valid_datetime b ->
  datetime_le a b <-> (is_aware a = is_aware b /\ instant a <= instant b).
Proof.
  intros Va Vb. split.
  - intros H. pose proof (datetime_le_aware a b H) as E. split; [exact E|].
    unfold datetime_le in H. rewrite datetime_lt_instant in H by auto.
    injection H as H. apply Z.ltb_ge in H. exact H.
  - intros (E & H). unfold datetime_le. rewrite datetime_lt_instant by auto.
    f_equal. now apply Z.ltb_ge.
Qed.

Lemma datetime_le_trans a b c :
  valid_datetime a -> valid_datetime b -> valid_datetime c ->
  datetime_le a b -> datetime_le b c -> datetime_le a c.
Proof.
  intros Va Vb Vc H1 H2.
  apply datetime_le_instant in H1 as (E1 & H1); auto.
  apply datetime_le_instant in H2 as (E2 & H2); auto.
  apply datetime_le_instant; auto. split; [congruence | lia].
Qed.

(** ** [list.sort] *)

Section SortFacts.
Context {A : Type} (key : A -> datetime).

Let le (a b : A) : Prop := datetime_le (key a) (key b).

Lemma insert_perm x l r : insert key x l = Ok r -> Permutation (x :: l) r.
Proof.
  revert r. induction l as [| y l IH]; simpl; intros r H.
  - injection H as <-. reflexivity.
  - apply bind_Ok_inv in H as (b & Hb & H). destruct b.
    + apply bind_Ok_inv in H as (r' & Hr & H). injection H as <-.
      rewrite perm_swap. apply perm_skip. now apply IH.
    + injection H as <-. reflexivity.
Qed.

Lemma insert_sorted x l r :
  insert key x l = Ok r -> Sorted le l -> Sorted le r.
Proof.
  revert r. induction l as [| y l IH]; simpl; intros r H S.
  - injection H as <-. repeat constructor.
  - apply bind_Ok_inv in H as (b & Hb & H). destruct b.
    + apply bind_Ok_inv in H as (r' & Hr & H). injection H as <-.
      inversion S as [| ? ? S' Hd]; subst.
      constructor; [now apply IH|].
      destruct l as [| z l]; simpl in Hr.
      * injection Hr as <-. constructor. now apply datetime_lt_le.
      * apply bind_Ok_inv in Hr as (b' & Hb' & Hr). destruct b'.
        -- apply bind_Ok_inv in Hr as (r'' & _ & Hr). injection Hr as <-.
           inversion Hd; subst. now constructor.
        -- injection Hr as <-. constructor. now apply datetime_lt_le.
    + injection H as <-. constructor; [exact S|]. constructor. exact Hb.
Qed.

Lemma sort_perm l s : sort key l = Ok s -> Permutation l s.
Proof.
  revert s. induction l as [| x l IH]; simpl; intros s H.
  - injection H as <-. constructor.
  - apply bind_Ok_inv in H as (s' & Hs & H).
    rewrite (IH s' Hs). now apply insert_perm.
Qed.

Lemma sort_sorted l s : sort key l = Ok s -> Sorted le s.
Proof.
  revert s. induction l as [| x l IH]; simpl; intros s H.
  - injection H as <-. constructor.
  - apply bind_Ok_inv in H as (s' & Hs & H).
    eapply insert_sorted; eauto.
Qed.

(** A list already in order is returned as it is. *)
Lemma sort_of_sorted l : Sorted le l -> sort key l = Ok l.
Proof.
  induction l as [| x l IH]; intros S; [reflexivity|].
  inversion S as [| ? ? S' Hd]; subst. simpl. rewrite (IH S'). simpl.
  destruct l as [| y l]; [reflexivity|].
  inversion Hd as [| ? ? Hxy]; subst. simpl.
  unfold le, datetime_le in Hxy. now rewrite Hxy.
Qed.

(** Keys of one awareness can always be sorted. *)
Lemma insert_returns x l :
  (forall y, In y l -> is_aware (key y) = is_aware (key x)) ->
  exists r, insert key x l = Ok r.
Proof.
  induction l as [| y l IH]; intros H; simpl; [eauto|].
  assert (E : is_aware (key y) = is_aware (key x)) by (apply H; now left).
  destruct IH as (r & Hr); [intros; apply H; now right|].
  unfold datetime_lt. unfold is_aware in E.
  destruct (utcoffset (key y)) as [oy |], (utcoffset (key x)) as [ox |];
    try discriminate.
  - destruct (oy =? ox); simpl;
      match goal with |- context [if ?b then _ else _] => destruct b end;
      [rewrite Hr| |rewrite Hr|]; simpl; eauto.
  - simpl.
    match goal with |- context [if ?b then _ else _] => destruct b end;
      [rewrite Hr|]; simpl; eauto.
Qed.

Lemma sort_returns l :
  (forall a b, In a l -> In b l -> is_aware (key a) = is_aware (key b)) ->
  exists s, sort key l = Ok s.
Proof.
  induction l as [| x l IH]; intros H; simpl; [eauto|].
  destruct IH as (s & Hs); [intros; apply H; now right|].
  rewrite Hs. simpl. apply insert_returns.
  intros y Hy. apply H; [right | now left].
  eapply Permutation_in; [symmetry; eapply sort_perm; eauto | exact Hy].
Qed.
End SortFacts.

(** ** The loop of [get_disposals] *)

Section Loop.
Variable fromisoformat : string -> option datetime.

Let from_dict := WasteDisposal.from_dict fromisoformat.

Lemma parse_item_valid item d :
  maps_to fromisoformat item d -> parse_item fromisoformat item = Ok [d].
Proof. unfold maps_to, parse_item. now intros ->. Qed.

Lemma parse_item_skipped item :
  skipped fromisoformat item -> parse_item fromisoformat item = Ok [].
Proof.
  unfold skipped, parse_item, raised.
  destruct (WasteDisposal.from_dict fromisoformat item) as [d | e]; simpl.
  - intros [H | H]; discriminate.
  - intros [H | H]; injection H as H; unfold isinstance; rewrite H;
      reflexivity.
Qed.

(** The mapping of an item raises one of four classes. *)
Lemma from_dict_raises item e :
  from_dict item = Raise e ->
  exn_cls e = KeyError \/ exn_cls e = ValueError \/
  exn_cls e = AttributeError \/ exn_cls e = TypeError.
Proof.
  unfold from_dict, WasteDisposal.from_dict, WasteDisposal.parse_date.
  destruct item as [| b | n | s | l | members]; simpl;
    try (intros H; injection H as <-; simpl; tauto).
  destruct (assoc "date" members) as [v |]; simpl;
    [| intros H; injection H as <-; simpl; tauto].
  destruct v; simpl; try (intros H; injection H as <-; simpl; tauto).
  destruct (fromisoformat _); simpl;
    [| intros H; injection H as <-; simpl; tauto].
  destruct (assoc "fraction" members); simpl;
    [| intros H; injection H as <-; simpl; tauto].
  destruct (assoc "description" members), (assoc "symbolId" members);
    simpl; discriminate.
Qed.

Lemma parse_item_raises item e :
  parse_item fromisoformat item = Raise e ->
  from_dict item = Raise e /\
  (exn_cls e = AttributeError \/ exn_cls e = TypeError).
Proof.
  unfold parse_item. fold from_dict.
  destruct (from_dict item) as [d | e'] eqn:F; simpl; [discriminate|].
  destruct (from_dict_raises item e' F) as [C | [C | [C | C]]];
    unfold isinstance; rewrite C; simpl; intros H;
    try discriminate; injection H as <-; tauto.
Qed.

Lemma parse_disposals_cons item rest :
  parse_disposals fromisoformat (item :: rest) =
  (parsed <- parse_item fromisoformat item ;;
   others <- parse_disposals fromisoformat rest ;;
   Ok (parsed ++ others)%list).
Proof. reflexivity. Qed.

Lemma parse_disposals_valid items ds :
  Forall2 (maps_to fromisoformat) items ds ->
  parse_disposals fromisoformat items = Ok ds.
Proof.
  induction 1 as [| item d items ds Hd _ IH]; [reflexivity|].
  rewrite parse_disposals_cons, (parse_item_valid _ _ Hd). simpl.
  now rewrite IH.
Qed.

Lemma parse_disposals_one_skipped before bad after ds1 ds2 :
  Forall2 (maps_to fromisoformat) before ds1 ->
  skipped fromisoformat bad ->
  Forall2 (maps_to fromisoformat) after ds2 ->
  parse_disposals fromisoformat (before ++ bad :: after)%list
  = Ok (ds1 ++ ds2)%list.
Proof.
  intros H1 Hbad H2.
  induction H1 as [| item d items ds Hd _ IH].
  - cbn [app]. rewrite parse_disposals_cons, (parse_item_skipped _ Hbad).
    simpl. now rewrite (parse_disposals_valid _ _ H2).
  - cbn [app]. rewrite parse_disposals_cons, (parse_item_valid _ _ Hd).
    simpl. now rewrite IH.
Qed.

Lemma parse_disposals_raises items e :
  parse_disposals fromisoformat items = Raise e ->
  exn_cls e = AttributeError \/ exn_cls e = TypeError.
Proof.
  induction items as [| item rest IH]; [discriminate|].
  rewrite parse_disposals_cons. intros H.
  apply bind_Raise_inv in H as [H | (parsed & _ & H)].
  - now apply parse_item_raises in H.
  - apply bind_Raise_inv in H as [H | (others & _ & H)];
      [now apply IH | discriminate].
Qed.

(** An item whose mapping raises outside the two skipped classes stops
    the loop. *)
Lemma parse_disposals_stops items bad e :
  In bad items -> parse_item fromisoformat bad = Raise e ->
  exists e', parse_disposals fromisoformat items = Raise e'.
Proof.
  induction items as [| item rest IH]; intros HIn Hbad; [contradiction|].
  rewrite parse_disposals_cons.
  destruct (parse_item fromisoformat item) as [parsed | e0] eqn:P; simpl; [| eauto].
  destruct HIn as [-> | HIn]; [congruence|].
  destruct (IH HIn Hbad) as (e' & ->). simpl. eauto.
Qed.

Lemma parse_disposals_first_failure before bad after ds e :
  parse_disposals fromisoformat before = Ok ds ->
  parse_item fromisoformat bad = Raise e ->
  parse_disposals fromisoformat (before ++ bad :: after)%list = Raise e.
Proof.
  revert ds. induction before as [| item rest IH]; intros ds Hb Hbad.
  - cbn [app]. rewrite parse_disposals_cons, Hbad. reflexivity.
  - cbn [app]. rewrite parse_disposals_cons in *.
    destruct (parse_item fromisoformat item) as [parsed | e0]; simpl in *; [|discriminate].
    destruct (parse_disposals fromisoformat rest) as [others | e1] eqn:R;
      simpl in *; [|discriminate].
    now rewrite (IH others eq_refl Hbad).
Qed.

(** A [date] that is not a string fails in [date_str.replace]. *)
Lemma non_string_date bad v :
  getitem bad "date" = Ok v -> (forall s, v <> JStr s) ->
  exists e, parse_item fromisoformat bad = Raise e /\ exn_cls e = AttributeError.
Proof.
  intros G NS. unfold parse_item, WasteDisposal.from_dict. rewrite G. simpl.
  destruct v; simpl; try (eexists; split; reflexivity).
  now destruct (NS s).
Qed.

Variable session : ClientSession.

Lemma get_disposals_unfold address_id data items :
  _request session (API_ADDRESS_DETAILS address_id) = Ok data ->
  get data "disposals" (JList []) = Ok (JList items) ->
  get_disposals fromisoformat session address_id =
  (disposals <- parse_disposals fromisoformat items ;;
   sort WasteDisposal.date disposals).
Proof.
  intros R G. unfold get_disposals. cbv zeta.
  rewrite R. cbn [bind]. rewrite G. reflexivity.
Qed.
End Loop.

(** ** [get_disposals] *)

Lemma returned_disposals_sorted
    (fromisoformat : string -> option datetime) (session : ClientSession)
    (address_id : string) (disposals : list WasteDisposal.t) :
  get_disposals fromisoformat session address_id = Ok disposals ->
  Sorted (fun a b => datetime_le (WasteDisposal.date a) (WasteDisposal.date b))
    disposals.
Proof.
  unfold get_disposals. cbv zeta. intros H.
  apply bind_Ok_inv in H as (data & _ & H).
  apply bind_Ok_inv in H as (listed & _ & H).
  apply bind_Ok_inv in H as (items & _ & H).
  apply bind_Ok_inv in H as (parsed & _ & H).
  exact (sort_sorted WasteDisposal.date parsed disposals H).
Qed.

(** The call returns when the request succeeds with a list of items that
    map or are skipped and whose dates are of one awareness. *)
Lemma get_disposals_returns
    (fromisoformat : string -> option datetime) (session : ClientSession)
    (address_id : string) (data : json) (items : list json)
    (parsed : list WasteDisposal.t) :
  _request session (API_ADDRESS_DETAILS address_id) = Ok data ->
  get data "disposals" (JList []) = Ok (JList items) ->
  parse_disposals fromisoformat items = Ok parsed ->
  same_awareness parsed ->
  exists disposals,
    get_disposals fromisoformat session address_id = Ok disposals /\
    Permutation parsed disposals /\
    (sorted_by_date parsed -> disposals = parsed).
Proof.
  intros R G P Aw.
  rewrite (get_disposals_unfold _ _ _ _ _ R G), P. cbn [bind].
  destruct (sort_returns WasteDisposal.date parsed Aw) as (s & Hs).
  exists s. split; [exact Hs|]. split; [now apply sort_perm in Hs|].
  intros S. apply (sort_of_sorted WasteDisposal.date) in S. congruence.
Qed.

(** C1. For every disposals response, in whatever order its [disposals]
    list comes, the sequence that [get_disposals] returns is sorted
    non-decreasing by date: each date is [<=] the next one.  The call does
    return, with a rearrangement of the mapped items, whenever the request
    succeeds with a list whose items map or are skipped and whose dates
    are of one awareness. *)
Theorem get_disposals_sorted
    (fromisoformat : string -> option datetime) (session : ClientSession)
    (address_id : string) :
  (forall disposals,
      get_disposals fromisoformat session address_id = Ok disposals ->
      sorted_by_date disposals) /\
  (forall data items parsed,
      _request session (API_ADDRESS_DETAILS address_id) = Ok data ->
      get data "disposals" (JList []) = Ok (JList items) ->
      parse_disposals fromisoformat items = Ok parsed ->
      same_awareness parsed ->
      exists disposals,
        get_disposals fromisoformat session address_id = Ok disposals /\
        Permutation parsed disposals /\ sorted_by_date disposals).
Proof.
  split.
  - intros disposals. unfold sorted_by_date, get_disposals. cbv zeta.
    intros Returned.
    apply bind_Ok_inv in Returned as (data & _ & Returned).
    apply bind_Ok_inv in Returned as (listed & _ & Returned).
    apply bind_Ok_inv in Returned as (items & _ & Returned).
    apply bind_Ok_inv in Returned as (parsed & _ & Sorting).
    apply (sort_sorted WasteDisposal.date parsed). exact Sorting.
  - intros data items parsed Requested Listed Parsed Aware.
    destruct (get_disposals_returns _ _ _ _ _ _ Requested Listed Parsed Aware)
      as (disposals & Returned & Rearranged & _).
    exists disposals. split; [exact Returned|]. split; [exact Rearranged|].
    exact (returned_disposals_sorted _ _ _ _ Returned).
Qed.

Lemma get_disposals_sorted_witness :
  sorted_by_date
    [disposal_on 2026 1 5 "Papir"; disposal_on 2026 1 8 "Matavfall";
     disposal_on 2026 1 22 "Restavfall"] /\
  exists disposals,
    get_disposals fromisoformat_basic
      (serving [item "2026-01-22T00:00:00" "Restavfall";
                item "2026-01-05T00:00:00" "Papir";
                item "2026-01-08T00:00:00" "Matavfall"])
      "8c098e45" = Ok disposals /\
    sorted_by_date disposals.
Proof.
  destruct (get_disposals_sorted fromisoformat_basic
              (serving [item "2026-01-22T00:00:00" "Restavfall";
                        item "2026-01-05T00:00:00" "Papir";
                        item "2026-01-08T00:00:00" "Matavfall"])
              "8c098e45") as (Sorted & Returns).
  split.
  - apply Sorted. reflexivity.
  - destruct (Returns
                (details_body [item "2026-01-22T00:00:00" "Restavfall";
                               item "2026-01-05T00:00:00" "Papir";
                               item "2026-01-08T00:00:00" "Matavfall"])
                [item "2026-01-22T00:00:00" "Restavfall";
                 item "2026-01-05T00:00:00" "Papir";
                 item "2026-01-08T00:00:00" "Matavfall"]
                [disposal_on 2026 1 22 "Restavfall";
                 disposal_on 2026 1 5 "Papir";
                 disposal_on 2026 1 8 "Matavfall"])
      as (disposals & Returned & _ & Ordered).
    + reflexivity.
    + reflexivity.
    + reflexivity.
    + intros a b [<- | [<- | [<- | []]]] [<- | [<- | [<- | []]]]; reflexivity.
    + exists disposals. auto.
Defined.

(** C4, as the code has it.  A batch of N items of which one raises
    [KeyError] or [ValueError] in its mapping, the others mapping to
    disposals whose dates are of one awareness, gives N-1 results: those
    disposals in ascending order of date, which is their order in the batch
    whenever that order is already ascending. *)
Theorem get_disposals_skips_invalid
    (fromisoformat : string -> option datetime) (session : ClientSession)
    (address_id : string) (data : json) (before after : list json)
    (bad : json) (ds1 ds2 : list WasteDisposal.t) :
  _request session (API_ADDRESS_DETAILS address_id) = Ok data ->
  get data "disposals" (JList []) = Ok (JList (before ++ bad :: after)%list) ->
  skipped fromisoformat bad ->
  Forall2 (maps_to fromisoformat) before ds1 ->
  Forall2 (maps_to fromisoformat) after ds2 ->
  same_awareness (ds1 ++ ds2)%list ->
  exists disposals,
    get_disposals fromisoformat session address_id = Ok disposals /\
    Z.of_nat (List.length disposals)
    = Z.of_nat (List.length (before ++ bad :: after)%list) - 1 /\
    Permutation (ds1 ++ ds2)%list disposals /\
    sorted_by_date disposals /\
    (sorted_by_date (ds1 ++ ds2)%list -> disposals = (ds1 ++ ds2)%list).
Proof.
  intros R G Hbad H1 H2 Aw.
  pose proof (parse_disposals_one_skipped _ _ _ _ _ _ H1 Hbad H2) as P.
  destruct (get_disposals_returns _ _ _ _ _ _ R G P Aw) as (out & E & Pm & St).
  exists out. split; [exact E|]. split; [|split; [exact Pm|split; [|exact St]]].
  - rewrite <- (Permutation_length Pm), !length_app. cbn [List.length].
    rewrite (Forall2_length H1), (Forall2_length H2). lia.
  - exact (returned_disposals_sorted _ _ _ _ E).
Qed.

Lemma get_disposals_skips_invalid_witness :
  exists disposals,
    get_disposals fromisoformat_basic
      (serving [item "2026-01-05T00:00:00" "Valid";
                JObj [("fraction", JStr "Invalid"); ("symbolId", JInt 0)];
                item "2026-01-06T00:00:00" "Also Valid"])
      "8c098e45" = Ok disposals /\
    Z.of_nat (List.length disposals) = 3 - 1 /\
    disposals
    = [disposal_on 2026 1 5 "Valid"; disposal_on 2026 1 6 "Also Valid"].
Proof.
  destruct (get_disposals_skips_invalid fromisoformat_basic
              (serving [item "2026-01-05T00:00:00" "Valid";
                        JObj [("fraction", JStr "Invalid"); ("symbolId", JInt 0)];
                        item "2026-01-06T00:00:00" "Also Valid"])
              "8c098e45"
              (details_body
                 [item "2026-01-05T00:00:00" "Valid";
                  JObj [("fraction", JStr "Invalid"); ("symbolId", JInt 0)];
                  item "2026-01-06T00:00:00" "Also Valid"])
              [item "2026-01-05T00:00:00" "Valid"]
              [item "2026-01-06T00:00:00" "Also Valid"]
              (JObj [("fraction", JStr "Invalid"); ("symbolId", JInt 0)])
              [disposal_on 2026 1 5 "Valid"]
              [disposal_on 2026 1 6 "Also Valid"])
    as (disposals & E & L & _ & _ & Keep).
  - reflexivity.
  - reflexivity.
  - left. reflexivity.
  - repeat constructor.
  - repeat constructor.
  - intros a b [<- | [<- | []]] [<- | [<- | []]]; reflexivity.
  - exists disposals. split; [exact E|]. split; [exact L|].
    apply Keep. repeat constructor.
Defined.

(** C4 as stated fails: of the valid items of this batch the one dated
    2026-01-06 comes first, and in the result it comes last. *)
Lemma get_disposals_reorders_valid_items :
  let first := item "2026-01-06T00:00:00" "Restavfall" in
  let bad := JObj [("fraction", JStr "Invalid"); ("symbolId", JInt 0)] in
  let last := item "2026-01-05T00:00:00" "Papir" in
  let a := disposal_on 2026 1 6 "Restavfall" in
  let b := disposal_on 2026 1 5 "Papir" in
  maps_to fromisoformat_basic first a /\
  skipped fromisoformat_basic bad /\
  maps_to fromisoformat_basic last b /\
  get_disposals fromisoformat_basic (serving [first; bad; last]) "8c098e45"
  = Ok [b; a] /\
  [b; a] <> [a; b].
Proof.
  cbv zeta. repeat split; try reflexivity.
  - left. reflexivity.
  - discriminate.
Qed.

(** C10. Only [KeyError] and [ValueError] are tolerated per item.  When the
    batch holds an item whose [date] is present and is not a string, the
    whole call fails: it raises [AttributeError] or [TypeError] (the
    [AttributeError] of that item when the items before it are mapped or
    skipped), an exception that is neither one of the two skipped classes
    nor of the client's [RenovasjonApiError] family; no sequence is
    returned. *)
Theorem get_disposals_fails_on_non_string_date
    (fromisoformat : string -> option datetime) (session : ClientSession)
    (address_id : string) (data : json) (items : list json)
    (bad v : json) :
  _request session (API_ADDRESS_DETAILS address_id) = Ok data ->
  get data "disposals" (JList []) = Ok (JList items) ->
  In bad items ->
  getitem bad "date" = Ok v ->
  (forall s, v <> JStr s) ->
  exists e,
    get_disposals fromisoformat session address_id = Raise e /\
    (exn_cls e = AttributeError \/ exn_cls e = TypeError) /\
    existsb (isinstance e) [KeyError; ValueError] = false /\
    isinstance e RenovasjonApiError = false /\
    (forall before after parsed,
        items = (before ++ bad :: after)%list ->
        parse_disposals fromisoformat before = Ok parsed ->
        exn_cls e = AttributeError).
Proof.
  intros R G HIn D NS.
  destruct (non_string_date fromisoformat bad v D NS) as (e0 & P0 & C0).
  destruct (parse_disposals_stops fromisoformat items bad e0 HIn P0) as (e & P).
  exists e. rewrite (get_disposals_unfold _ _ _ _ _ R G), P. cbn [bind].
  split; [reflexivity|].
  pose proof (parse_disposals_raises fromisoformat items e P) as C.
  split; [exact C|].
  split; [|split].
  - unfold isinstance. destruct C as [-> | ->]; reflexivity.
  - unfold isinstance. destruct C as [-> | ->]; reflexivity.
  - intros before after parsed -> Pb.
    rewrite (parse_disposals_first_failure _ _ _ _ _ _ Pb P0) in P.
    congruence.
Qed.

Lemma get_disposals_fails_on_non_string_date_witness :
  exists e,
    get_disposals fromisoformat_basic
      (serving [item "2026-01-05T00:00:00" "Valid";
                JObj [("date", JInt 20260106); ("fraction", JStr "Papir")];
                item "2026-01-06T00:00:00" "Also Valid"])
      "8c098e45" = Raise e /\
    exn_cls e = AttributeError.
Proof.
  destruct (get_disposals_fails_on_non_string_date fromisoformat_basic
              (serving [item "2026-01-05T00:00:00" "Valid";
                        JObj [("date", JInt 20260106); ("fraction", JStr "Papir")];
                        item "2026-01-06T00:00:00" "Also Valid"])
              "8c098e45"
              (details_body
                 [item "2026-01-05T00:00:00" "Valid";
                  JObj [("date", JInt 20260106); ("fraction", JStr "Papir")];
                  item "2026-01-06T00:00:00" "Also Valid"])
              [item "2026-01-05T00:00:00" "Valid";
               JObj [("date", JInt 20260106); ("fraction", JStr "Papir")];
               item "2026-01-06T00:00:00" "Also Valid"]
              (JObj [("date", JInt 20260106); ("fraction", JStr "Papir")])
              (JInt 20260106))
    as (e & E & _ & _ & _ & First).
  - reflexivity.
  - reflexivity.
  - right. left. reflexivity.
  - reflexivity.
  - discriminate.
  - exists e. split; [exact E|].
    apply (First [item "2026-01-05T00:00:00" "Valid"]
                 [item "2026-01-06T00:00:00" "Also Valid"]
                 [disposal_on 2026 1 5 "Valid"]); reflexivity.
Defined.

(** ** [quote] and the search URL *)

Lemma mem_app c s t : mem c (s ++ t) = mem c s || mem c t.
Proof.
  induction s as [| c' s IH]; simpl; [reflexivity|].
  now rewrite IH, orb_assoc.
Qed.

(** A byte is written as itself when it is unreserved, and as a percent
    sign and two digits otherwise. *)
Ltac split_on_char c :=
  repeat match goal with
         | |- context [Ascii.eqb c ?x] =>
             destruct (Ascii.eqb_spec c x) as [-> | _]
         end.

Ltac eval_chars :=
  match goal with
  | |- mem ?c ?q = true -> _ =>
      let q' := eval vm_compute in q in change q with q'; cbn [mem]
  end.

(** A byte is written as itself when it is unreserved, and as a percent
    sign and two digits otherwise. *)
Lemma quoter_chars b c :
  mem c (quoter "" b) = true -> mem c _ALWAYS_SAFE = true \/ c = "%"%char.
Proof.
  destruct b as [[] [] [] [] [] [] [] []]; eval_chars; split_on_char c;
    intros H; try discriminate H;
    solve [left; reflexivity | right; reflexivity].
Qed.

Lemma quote_chars query c :
  mem c (quote query "") = true -> mem c _ALWAYS_SAFE = true \/ c = "%"%char.
Proof.
  induction query as [| b query IH]; simpl; [discriminate|].
  rewrite mem_app, orb_true_iff. intros [H | H]; [|now apply IH].
  now apply (quoter_chars b).
Qed.

Lemma reserved_not_safe c :
  mem c reserved = true -> mem c _ALWAYS_SAFE = false /\ c <> "%"%char.
Proof.
  eval_chars. split_on_char c; intros H; try discriminate H;
    (split; [reflexivity | discriminate]).
Qed.

Lemma percent_decode_quoter b s :
  percent_decode (quoter "" b ++ s) = String b (percent_decode s).
Proof.
  destruct b as [[] [] [] [] [] [] [] []]; destruct s as [| c [| c' s]];
    reflexivity.
Qed.

(** C8. For every query string, [search_address] requests the search
    endpoint with the query percent-encoded and no character kept as safe:
    the only request made is for the base URL, [/address/] and
    [quote(query, safe="")]; the encoded query consists of unreserved
    characters and percent signs, holds no reserved character and no
    space, and decodes back to the query; ["Storgata 1, Oslo"] becomes
    ["Storgata%201%2C%20Oslo"]. *)
Theorem search_address_url_encoded (query : string) :
  (exists rest,
      forall session,
        search_address session query
        = (data <- _request session
                     (API_BASE_URL ++ "/address/" ++ quote query "") ;;
           rest data)) /\
  (forall c, mem c (quote query "") = true ->
             mem c _ALWAYS_SAFE = true \/ c = "%"%char) /\
  (forall c, mem c reserved = true -> mem c (quote query "") = false) /\
  percent_decode (quote query "") = query /\
  quote "Storgata 1, Oslo" "" = "Storgata%201%2C%20Oslo".
Proof.
  split; [|split; [|split; [|split]]].
  - eexists. intros session. unfold search_address, API_ADDRESS_SEARCH.
    cbv zeta. reflexivity.
  - apply quote_chars.
  - intros c R. destruct (reserved_not_safe c R) as (NS & NP).
    destruct (mem c (quote query "")) eqn:M; [|reflexivity].
    destruct (quote_chars query c M) as [S | P]; congruence.
  - induction query as [| b query IH]; [reflexivity|].
    cbn [quote]. now rewrite percent_decode_quoter, IH.
  - reflexivity.
Qed.

(** ** [_request] *)

Lemma request_of_response session url r :
  session (request_for url) = Ok r ->
  _request session url
  = try_except (_ <- raise_for_status r ;; json_body r)
      [ ([TimeoutError], fun err =>
           Raise (new_exn RenovasjonConnectionError
                    "Timeout connecting to Renovasjonsportal API"));
        ([ClientResponseError], fun err =>
           if exn_status err =? 404
           then Raise (new_exn RenovasjonAddressNotFoundError "Address not found")
           else Raise (new_exn RenovasjonApiError
                         ("API error: " ++ str_of_int (exn_status err)
                          ++ " " ++ exn_message err)));
        ([ClientError], fun err =>
           Raise (new_exn RenovasjonConnectionError
                    ("Connection error: " ++ exn_str err))) ].
Proof.
  unfold _request, request_for. intros H. rewrite H. reflexivity.
Qed.




Lemma search_address_url_encoded_witness :
  mem "," (quote "Storgata 1, Oslo" "") = false /\
  mem " " (quote "Storgata 1, Oslo" "") = false.
Proof.
  destruct (search_address_url_encoded "Storgata 1, Oslo")
    as (_ & _ & Escaped & _).
  split; apply Escaped; reflexivity.
Defined.

(** ** The dict of [get_disposals_by_fraction] *)

Lemma hkey_eqb_spec a b : reflect (a = b) (hkey_eqb a b).
Proof.
  destruct a as [| n | s], b as [| m | t]; simpl;
    try (constructor; congruence).
  - destruct (Z.eqb_spec n m); constructor; congruence.
  - destruct (String.eqb_spec s t); constructor; congruence.
Qed.

Lemma is_key_iff h k : is_key h k = true <-> key_of k = Some h.
Proof.
  unfold is_key. destruct (key_of k) as [h' |]; [|split; discriminate].
  destruct (hkey_eqb_spec h h'); split; congruence.
Qed.

Section DictFacts.
Context {V : Type}.

Lemma lookup_store_same h k (v : V) d :
  key_of k = Some h -> lookup h (store h k v d) = Some v.
Proof.
  intros K. induction d as [| (k', v') d IH]; simpl.
  - apply is_key_iff in K. now rewrite K.
  - destruct (is_key h k') eqn:E; simpl; rewrite E; [reflexivity | exact IH].
Qed.

Lemma lookup_store_other h h' k (v : V) d :
  key_of k = Some h -> h' <> h -> lookup h' (store h k v d) = lookup h' d.
Proof.
  intros K N. induction d as [| (k', v') d IH]; simpl.
  - destruct (is_key h' k) eqn:E; [|reflexivity].
    apply is_key_iff in E. congruence.
  - destruct (is_key h k') eqn:E; simpl.
    + destruct (is_key h' k') eqn:E'; [|reflexivity].
      apply is_key_iff in E, E'. congruence.
    + now rewrite IH.
Qed.

Lemma lookup_None h (d : dict V) :
  lookup h d = None <-> ~ In (Some h) (hashed_keys d).
Proof.
  induction d as [| (k, v) d IH]; simpl; [tauto|].
  destruct (is_key h k) eqn:E.
  - apply is_key_iff in E. split; [discriminate | tauto].
  - rewrite IH. split; [|tauto].
    intros N [K | I]; [|tauto]. apply is_key_iff in K. congruence.
Qed.

Lemma hashed_keys_store h k (v : V) d :
  key_of k = Some h ->
  hashed_keys (store h k v d)
  = match lookup h d with
    | Some _ => hashed_keys d
    | None => (hashed_keys d ++ [Some h])%list
    end.
Proof.
  intros K. induction d as [| (k', v') d IH]; simpl; [now rewrite K|].
  destruct (is_key h k') eqn:E; simpl; [reflexivity|].
  rewrite IH. now destruct (lookup h d).
Qed.

Lemma lookup_In h k (v : V) d :
  NoDup (hashed_keys d) -> In (k, v) d -> key_of k = Some h ->
  lookup h d = Some v.
Proof.
  induction d as [| (k', v') d IH]; simpl; intros ND I K; [contradiction|].
  inversion ND as [| ? ? NI ND']; subst.
  destruct I as [I | I].
  - injection I as -> ->. apply is_key_iff in K. now rewrite K.
  - destruct (is_key h k') eqn:E; [|now apply IH].
    apply is_key_iff in E. exfalso. apply NI. rewrite E, <- K.
    change (key_of k) with (key_of (fst (k, v))).
    now apply (in_map (fun entry => key_of (fst entry))).
Qed.

Lemma In_lookup h (v : V) d :
  lookup h d = Some v -> exists k, In (k, v) d /\ key_of k = Some h.
Proof.
  induction d as [| (k', v') d IH]; simpl; [discriminate|].
  destruct (is_key h k') eqn:E.
  - intros H; injection H as ->. apply is_key_iff in E. eauto.
  - intros H. destruct (IH H) as (k & I & K). eauto.
Qed.
End DictFacts.

Lemma with_key_snoc h seen d :
  with_key h (seen ++ [d])%list
  = if is_key h (WasteDisposal.fraction d)
    then (with_key h seen ++ [d])%list else with_key h seen.
Proof.
  unfold with_key. rewrite filter_app. simpl.
  destruct (is_key h (WasteDisposal.fraction d)); [reflexivity|].
  apply app_nil_r.
Qed.

Lemma some_of_snoc {A : Type} (l : list A) (x : A) :
  match (l ++ [x])%list with [] => None | bucket => Some bucket end
  = Some (l ++ [x])%list.
Proof. destruct l; reflexivity. Qed.

(** One turn of the loop puts the disposal at the end of the bucket of its
    fraction and leaves the other buckets as they are. *)
Lemma add_disposal_groups by_fraction seen d :
  groups by_fraction seen -> hashable_fraction d ->
  exists by_fraction',
    add_disposal by_fraction d = Ok by_fraction' /\
    groups by_fraction' (seen ++ [d])%list.
Proof.
  intros (ND & NN & L) Hd. unfold hashable_fraction in Hd.
  destruct (key_of (WasteDisposal.fraction d)) as [h |] eqn:K; [|congruence].
  clear Hd. unfold add_disposal, dict_contains, dict_getitem, dict_setitem, hash.
  rewrite K. cbn [bind].
  assert (Other : forall h', h' <> h ->
            is_key h' (WasteDisposal.fraction d) = false).
  { intros h' N. destruct (is_key h' _) eqn:E; [|reflexivity].
    apply is_key_iff in E. congruence. }
  assert (Same : is_key h (WasteDisposal.fraction d) = true)
    by now apply is_key_iff.
  destruct (lookup h by_fraction) as [bucket |] eqn:Lh; cbn [negb bind].
  - rewrite Lh. cbn [bind]. eexists. split; [reflexivity|].
    split; [|split].
    + now rewrite hashed_keys_store, Lh.
    + now rewrite hashed_keys_store, Lh.
    + intros h'. rewrite with_key_snoc.
      destruct (hkey_eqb_spec h' h) as [-> | N].
      * rewrite Same, some_of_snoc, lookup_store_same by exact K.
        rewrite L in Lh. destruct (with_key h seen); congruence.
      * rewrite (Other h' N), lookup_store_other by assumption. apply L.
  - rewrite lookup_store_same by exact K. cbn [bind app].
    eexists. split; [reflexivity|].
    assert (Fresh : ~ In (Some h) (hashed_keys by_fraction))
      by now apply lookup_None.
    split; [|split].
    + rewrite hashed_keys_store, lookup_store_same by exact K.
      rewrite hashed_keys_store, Lh by exact K.
      apply NoDup_app; [exact ND | repeat constructor; tauto |].
      intros x I [<- | []]. contradiction.
    + rewrite hashed_keys_store, lookup_store_same by exact K.
      rewrite hashed_keys_store, Lh by exact K.
      rewrite in_app_iff. simpl. intros [I | [I | []]];
        [contradiction | discriminate].
    + intros h'. rewrite with_key_snoc.
      destruct (hkey_eqb_spec h' h) as [-> | N].
      * rewrite Same, some_of_snoc, lookup_store_same by exact K.
        rewrite L in Lh. destruct (with_key h seen); [reflexivity | discriminate].
      * rewrite (Other h' N), !lookup_store_other by assumption. apply L.
Qed.

Lemma group_disposals_groups rest :
  forall by_fraction seen,
    groups by_fraction seen -> Forall hashable_fraction rest ->
    exists by_fraction',
      group_disposals rest by_fraction = Ok by_fraction' /\
      groups by_fraction' (seen ++ rest)%list.
Proof.
  induction rest as [| d rest IH]; intros by_fraction seen G H.
  - exists by_fraction. rewrite app_nil_r. split; [reflexivity | exact G].
  - inversion H as [| ? ? Hd Hrest]; subst.
    destruct (add_disposal_groups _ _ _ G Hd) as (by1 & Step & G1).
    destruct (IH _ _ G1 Hrest) as (by2 & Rest & G2).
    exists by2. cbn [group_disposals]. rewrite Step. cbn [bind].
    split; [exact Rest|]. now rewrite <- app_assoc in G2.
Qed.

(** A sublist of a list sorted by date is sorted by date. *)
Lemma sorted_head_least d rest :
  Forall (fun x => valid_datetime (WasteDisposal.date x)) (d :: rest) ->
  sorted_by_date (d :: rest) ->
  Forall (fun x => datetime_le (WasteDisposal.date d) (WasteDisposal.date x))
    rest.
Proof.
  unfold sorted_by_date. revert d.
  induction rest as [| y rest IH]; intros d V S; [constructor|].
  inversion S as [| ? ? S' Hd]; subst. inversion Hd as [| ? ? Hdy]; subst.
  inversion V as [| ? ? Vd V']; subst. inversion V' as [| ? ? Vy V'']; subst.
  constructor; [exact Hdy|].
  specialize (IH y V' S').
  rewrite Forall_forall in IH, V'' |- *. intros x I.
  apply (datetime_le_trans _ (WasteDisposal.date y)); auto.
Qed.

Lemma sorted_by_date_filter f disposals :
  Forall (fun x => valid_datetime (WasteDisposal.date x)) disposals ->
  sorted_by_date disposals -> sorted_by_date (filter f disposals).
Proof.
  induction disposals as [| d rest IH]; intros V S; [constructor|].
  pose proof (sorted_head_least d rest V S) as Least.
  inversion S as [| ? ? S' _]; subst. inversion V as [| ? ? _ V']; subst.
  specialize (IH V' S'). simpl. destruct (f d); [|exact IH].
  constructor; [exact IH|].
  destruct (filter f rest) as [| y kept] eqn:F; constructor.
  assert (I : In y (filter f rest)) by (rewrite F; now left).
  apply filter_In in I as (I & _).
  rewrite Forall_forall in Least. now apply Least.
Qed.

(** C3. For every disposal sequence whose fractions can be dict keys,
    [get_disposals_by_fraction] splits the sequence that [get_disposals]
    returned into buckets with distinct keys: each disposal is in the
    bucket keyed by its fraction; each bucket is exactly the disposals of
    that fraction, in their order in the sequence, so that no disposal is
    in another bucket; and when the sequence is sorted by date (its dates
    being valid datetimes), every bucket is sorted by date. *)
Theorem get_disposals_by_fraction_partition
    (disposals : list WasteDisposal.t) :
  Forall hashable_fraction disposals ->
  exists by_fraction,
    group_disposals disposals [] = Ok by_fraction /\
    (forall fromisoformat session address_id,
        get_disposals fromisoformat session address_id = Ok disposals ->
        get_disposals_by_fraction fromisoformat session address_id
        = Ok by_fraction) /\
    NoDup (hashed_keys by_fraction) /\
    (forall d, In d disposals ->
       exists k bucket,
         In (k, bucket) by_fraction /\
         key_of k = key_of (WasteDisposal.fraction d) /\ In d bucket) /\
    (forall k bucket, In (k, bucket) by_fraction ->
       exists h, key_of k = Some h /\ bucket = with_key h disposals) /\
    (sorted_by_date disposals ->
     Forall (fun d => valid_datetime (WasteDisposal.date d)) disposals ->
     forall k bucket, In (k, bucket) by_fraction -> sorted_by_date bucket).
Proof.
  intros Hashable.
  assert (Empty : groups [] []).
  { split; [constructor | split; [simpl; tauto | reflexivity]]. }
  destruct (group_disposals_groups disposals [] [] Empty Hashable)
    as (by_fraction & Grouped & ND & NN & L).
  cbn [app] in L.
  assert (Bucket : forall k bucket, In (k, bucket) by_fraction ->
            exists h, key_of k = Some h /\ bucket = with_key h disposals).
  { intros k bucket I.
    destruct (key_of k) as [h |] eqn:K.
    - exists h. split; [reflexivity|].
      pose proof (lookup_In h k bucket by_fraction ND I K) as Found.
      rewrite L in Found. destruct (with_key h disposals); congruence.
    - exfalso. apply NN. rewrite <- K.
      change (key_of k) with (key_of (fst (k, bucket))).
      now apply (in_map (fun entry => key_of (fst entry))). }
  exists by_fraction. split; [exact Grouped|].
  split; [|split; [exact ND|split; [|split; [exact Bucket|]]]].
  - intros fromisoformat session address_id Returned.
    unfold get_disposals_by_fraction. now rewrite Returned.
  - intros d I.
    pose proof (proj1 (Forall_forall _ _) Hashable d I) as Hd.
    unfold hashable_fraction in Hd.
    destruct (key_of (WasteDisposal.fraction d)) as [h |] eqn:K; [|congruence].
    assert (Id : In d (with_key h disposals)).
    { apply filter_In. split; [exact I | now apply is_key_iff]. }
    specialize (L h). destruct (with_key h disposals) as [| x l] eqn:W;
      [contradiction|].
    destruct (In_lookup h _ _ L) as (k & Ik & Kk).
    exists k, (x :: l). auto.
  - intros Sorted Valid k bucket I.
    destruct (Bucket k bucket I) as (h & _ & ->).
    now apply sorted_by_date_filter.
Qed.

Lemma get_disposals_by_fraction_partition_witness :
  exists by_fraction,
    group_disposals
      [disposal_on 2026 1 8 "Matavfall"; disposal_on 2026 1 22 "Matavfall";
       disposal_on 2026 2 5 "Papir"] []
    = Ok by_fraction /\
    forall k bucket, In (k, bucket) by_fraction -> sorted_by_date bucket.
Proof.
  destruct (get_disposals_by_fraction_partition
              [disposal_on 2026 1 8 "Matavfall";
               disposal_on 2026 1 22 "Matavfall";
               disposal_on 2026 2 5 "Papir"])
    as (by_fraction & Grouped & _ & _ & _ & _ & Sorted).
  - repeat constructor; discriminate.
  - exists by_fraction. split; [exact Grouped|].
    apply Sorted.
    + repeat constructor.
    + repeat (apply Forall_cons;
              [vm_compute; repeat split; discriminate|]).
      apply Forall_nil.
Defined.

(** ** The queries of [RenovasjonData] *)

Lemma date_lt_irrefl d : date_lt d d = false.
Proof.
  destruct (date_lt d d) eqn:E; [|reflexivity].
  apply date_lt_spec in E. lia.
Qed.

Lemma date_le_trans a b c :
  date_le a b = true -> date_le b c = true -> date_le a c = true.
Proof.
  unfold date_le. rewrite !negb_true_iff. intros H1 H2.
  destruct (date_lt c a) eqn:E; [|reflexivity].
  assert (N1 : ~ date_lt b a = true) by congruence.
  assert (N2 : ~ date_lt c b = true) by congruence.
  rewrite date_lt_spec in E, N1, N2. lia.
Qed.

(** The scan returns the first entry that is not before today. *)
Lemma first_on_or_after_Some now disposals d :
  first_on_or_after now disposals = Some d <->
  exists before after,
    disposals = (before ++ d :: after)%list /\
    Forall (before_today now) before /\ on_or_after now d = true.
Proof.
  unfold before_today. split.
  - induction disposals as [| x rest IH]; simpl; [discriminate|].
    destruct (on_or_after now x) eqn:E.
    + intros H; injection H as ->. exists [], rest. auto.
    + intros H. destruct (IH H) as (before & after & -> & B & D).
      exists (x :: before), after. auto.
  - intros (before & after & -> & B & D).
    induction B as [| x before Hx _ IH]; simpl; [now rewrite D|].
    now rewrite Hx.
Qed.

Lemma first_on_or_after_None now disposals :
  first_on_or_after now disposals = None <->
  Forall (before_today now) disposals.
Proof.
  unfold before_today. induction disposals as [| x rest IH]; simpl.
  - split; [constructor | reflexivity].
  - destruct (on_or_after now x) eqn:E; split.
    + discriminate.
    + intros H. inversion H; congruence.
    + intros H. constructor; [exact E | now apply IH].
    + intros H. inversion H; subst. now apply IH.
Qed.

(** Only the day of [now] matters to the scan. *)
Lemma first_on_or_after_day now now' disposals :
  datetime_date now' = datetime_date now ->
  first_on_or_after now' disposals = first_on_or_after now disposals.
Proof.
  intros E. induction disposals as [| x rest IH]; [reflexivity|].
  simpl. rewrite IH. unfold on_or_after. now rewrite E.
Qed.

Lemma sorted_by_day_after before d after :
  sorted_by_day (before ++ d :: after)%list ->
  Forall (fun x => date_le (day_of d) (day_of x) = true) after.
Proof.
  unfold sorted_by_day. induction before as [| y before IH]; simpl; intros S.
  - now inversion S.
  - inversion S; subst. now apply IH.
Qed.

(** C6. [get_next_disposal(fraction)] returns the first entry of the
    fraction's sequence whose day is on or after the day of [now] (the
    comparison is on [.date()] of both sides), and none when each entry is
    before today, which includes an unknown fraction; entries all dated
    yesterday give none; and on a sequence in ascending order of day the
    entry returned is the earliest of those on or after today. *)
Theorem get_next_disposal_first_upcoming
    (self : RenovasjonData) (fraction : string) (now : datetime) :
  let disposals := dict_get (disposals_by_fraction self) fraction [] in
  (forall d,
      get_next_disposal self fraction now = Some d <->
      exists before after,
        disposals = (before ++ d :: after)%list /\
        Forall (before_today now) before /\
        date_ge (day_of d) (datetime_date now) = true) /\
  (get_next_disposal self fraction now = None <->
   Forall (fun x => date_lt (day_of x) (datetime_date now) = true) disposals) /\
  (lookup (HStr fraction) (disposals_by_fraction self) = None ->
   get_next_disposal self fraction now = None) /\
  ((forall x, In x disposals ->
      in_calendar (day_of x) /\ datetime_date now = next_day (day_of x)) ->
   get_next_disposal self fraction now = None) /\
  (sorted_by_day disposals ->
   forall d, get_next_disposal self fraction now = Some d ->
     forall x, In x disposals -> on_or_after now x = true ->
       date_le (day_of d) (day_of x) = true) /\
  (forall now', datetime_date now' = datetime_date now ->
     get_next_disposal self fraction now'
     = get_next_disposal self fraction now).
Proof.
  cbv zeta. unfold get_next_disposal.
  assert (Before : forall x, before_today now x <->
                             date_lt (day_of x) (datetime_date now) = true).
  { intros x. unfold before_today, on_or_after, date_ge, day_of.
    now rewrite negb_false_iff. }
  split; [|split; [|split; [|split; [|split]]]];
    [| | | | |intros now' E; now apply first_on_or_after_day].
  - intros d. apply first_on_or_after_Some.
  - rewrite first_on_or_after_None. split; apply Forall_impl; apply Before.
  - unfold dict_get. now intros ->.
  - intros Yesterday. apply first_on_or_after_None, Forall_forall.
    intros x I. destruct (Yesterday x I) as (C & E).
    apply Before. rewrite E. now apply date_lt_next_day.
  - intros S d Found x I Upcoming.
    apply first_on_or_after_Some in Found as (before & after & E & B & _).
    rewrite E in I, S. apply in_app_or in I as [I | [<- | I]].
    + rewrite Forall_forall in B. specialize (B x I).
      unfold before_today in B. congruence.
    + unfold date_le. now rewrite date_lt_irrefl.
    + pose proof (sorted_by_day_after _ _ _ S) as A.
      rewrite Forall_forall in A. now apply A.
Qed.

Lemma get_next_disposal_first_upcoming_witness :
  get_next_disposal
    (snapshot_of [(JStr "Restavfall", [disposal_on 2026 1 7 "Restavfall"])])
    "Restavfall" (half_past_ten 2026 1 8) = None /\
  date_le (day_of (disposal_on 2026 1 8 "Matavfall"))
    (day_of (disposal_on 2026 1 22 "Matavfall")) = true.
Proof.
  split.
  - destruct (get_next_disposal_first_upcoming
                (snapshot_of
                   [(JStr "Restavfall", [disposal_on 2026 1 7 "Restavfall"])])
                "Restavfall" (half_past_ten 2026 1 8))
      as (_ & _ & _ & Yesterday & _ & _).
    apply Yesterday. intros x [<- | []]. split; [|reflexivity].
    vm_compute. repeat split; discriminate.
  - destruct (get_next_disposal_first_upcoming
                (snapshot_of
                   [(JStr "Matavfall",
                     [disposal_on 2026 1 7 "Matavfall";
                      disposal_on 2026 1 8 "Matavfall";
                      disposal_on 2026 1 22 "Matavfall"])])
                "Matavfall" (half_past_ten 2026 1 8))
      as (_ & _ & _ & _ & Earliest & _).
    apply Earliest.
    + repeat constructor.
    + reflexivity.
    + right. right. left. reflexivity.
    + reflexivity.
Defined.

(** The buckets the client builds from dates of one offset are in
    ascending order of day. *)
Lemma tuple_lt_date_lt a b :
  date_lt (dt_date a) (dt_date b) = true ->
  tuple_lt (datetime_tuple a) (datetime_tuple b) = true.
Proof.
  intros H. apply date_lt_spec in H.
  unfold datetime_tuple, date_tuple. cbn [app].
  rewrite !tuple_lt_cons. lia.
Qed.

Lemma sorted_by_date_by_day disposals :
  (forall a b, In a disposals -> In b disposals ->
     utcoffset (WasteDisposal.date a) = utcoffset (WasteDisposal.date b)) ->
  sorted_by_date disposals -> sorted_by_day disposals.
Proof.
  unfold sorted_by_date, sorted_by_day. intros Same S.
  assert (Step : Sorted (fun a b => date_le (day_of a) (day_of b) = true)
                   disposals).
  { induction S as [| d rest S IH Hd]; constructor.
    - apply IH. intros a b Ia Ib. apply Same; now right.
    - destruct Hd as [| y rest Hdy]; constructor.
      specialize (Same d y (or_introl eq_refl) (or_intror (or_introl eq_refl))).
      unfold datetime_le, datetime_lt in Hdy. rewrite Same in Hdy.
      unfold date_le, day_of, datetime_date.
      destruct (date_lt (dt_date (WasteDisposal.date y))
                  (dt_date (WasteDisposal.date d))) eqn:E; [|reflexivity].
      apply tuple_lt_date_lt in E. rewrite E in Hdy.
      destruct (utcoffset (WasteDisposal.date y)) as [o |];
        [rewrite Z.eqb_refl in Hdy|]; discriminate. }
  apply Sorted_StronglySorted; [|exact Step].
  intros a b c. apply date_le_trans.
Qed.

(** C7. [get_days_until(fraction)] is the calendar date of the next
    disposal minus today's date, in whole days: the difference of the two
    ordinals, which is [n] when the disposal is dated [n] days after today
    and so [1] when it is dated tomorrow; and it is none exactly when
    [get_next_disposal(fraction)] is none. *)
Theorem get_days_until_whole_days
    (self : RenovasjonData) (fraction : string) (now : datetime)
    (today : date) :
  (get_days_until self fraction now today = None <->
   get_next_disposal self fraction now = None) /\
  (forall d, get_next_disposal self fraction now = Some d ->
     get_days_until self fraction now today
     = Some (toordinal (day_of d) - toordinal today)) /\
  (forall d n, get_next_disposal self fraction now = Some d ->
     in_calendar today -> day_of d = days_later n today ->
     get_days_until self fraction now today = Some (Z.of_nat n)) /\
  (forall d, get_next_disposal self fraction now = Some d ->
     in_calendar today -> day_of d = next_day today ->
     get_days_until self fraction now today = Some 1).
Proof.
  unfold get_days_until.
  destruct (get_next_disposal self fraction now) as [next |].
  - split; [split; discriminate|].
    split; [|split].
    + intros d E. now injection E as <-.
    + intros d n E C D. injection E as <-.
      unfold date_sub_days. fold (day_of next).
      rewrite D, toordinal_days_later by exact C. f_equal. lia.
    + intros d E C D. injection E as <-.
      unfold date_sub_days. fold (day_of next).
      rewrite D, toordinal_next_day by exact C. f_equal. lia.
  - split; [tauto|]. repeat split; discriminate.
Qed.

Lemma get_days_until_whole_days_witness :
  get_days_until
    (snapshot_of [(JStr "Restavfall",
                   [disposal_on 2026 2 28 "Restavfall";
                    disposal_on 2026 3 1 "Restavfall"])])
    "Restavfall" (half_past_ten 2026 2 28) (mkDate 2026 2 28) = Some 0 /\
  get_days_until
    (snapshot_of [(JStr "Restavfall",
                   [disposal_on 2026 2 27 "Restavfall";
                    disposal_on 2026 3 1 "Restavfall"])])
    "Restavfall" (half_past_ten 2026 2 28) (mkDate 2026 2 28) = Some 1.
Proof.
  split.
  - apply (get_days_until_whole_days
             (snapshot_of [(JStr "Restavfall",
                            [disposal_on 2026 2 28 "Restavfall";
                             disposal_on 2026 3 1 "Restavfall"])])
             "Restavfall" (half_past_ten 2026 2 28) (mkDate 2026 2 28))
      with (d := disposal_on 2026 2 28 "Restavfall") (n := 0%nat).
    + reflexivity.
    + vm_compute. repeat split; discriminate.
    + reflexivity.
  - apply (get_days_until_whole_days
             (snapshot_of [(JStr "Restavfall",
                            [disposal_on 2026 2 27 "Restavfall";
                             disposal_on 2026 3 1 "Restavfall"])])
             "Restavfall" (half_past_ten 2026 2 28) (mkDate 2026 2 28))
      with (d := disposal_on 2026 3 1 "Restavfall").
    + reflexivity.
    + vm_compute. repeat split; discriminate.
    + reflexivity.
Defined.

(** ** The coordinator *)




(** C5. When the client call of a refresh raises an exception
    ([RenovasjonConnectionError], [RenovasjonApiError] or any other
    [Exception]), [_async_update_data] raises [UpdateFailed], which is not
    of the client's exception family, with the original message after a
    prefix; it writes no attribute of the coordinator, and the refresh
    leaves the held snapshot as it was: after a successful refresh and then
    a failed one, the coordinator holds the snapshot of the successful one
    and a query through it is answered from that snapshot. *)
Theorem failed_refresh_keeps_snapshot
    (fromisoformat : string -> option datetime) (session : ClientSession)
    (now : datetime) (self : RenovasjonCoordinator) (err : exn) :
  get_disposals_by_fraction fromisoformat session (_address_id self)
  = Raise err ->
  isinstance err Exception = true ->
  fst (_async_update_data fromisoformat session now self)
  = Raise (new_exn UpdateFailed (failure_prefix err ++ exn_str err)) /\
  issubclass UpdateFailed RenovasjonApiError = false /\
  snd (_async_update_data fromisoformat session now self) = self /\
  data (async_refresh fromisoformat session now self) = data self /\
  (forall session0 now0 self0 snapshot,
      fst (_async_update_data fromisoformat session0 now0 self0)
      = Ok snapshot ->
      self = async_refresh fromisoformat session0 now0 self0 ->
      data (async_refresh fromisoformat session now self) = Some snapshot /\
      forall (A : Type) (query : RenovasjonData -> A),
        call_on_data (async_refresh fromisoformat session now self) query
        = Ok (query snapshot)).
Proof.
  intros Failed IsException.
  assert (Wrapped :
            fst (_async_update_data fromisoformat session now self)
            = Raise (new_exn UpdateFailed (failure_prefix err ++ exn_str err))).
  { unfold _async_update_data, failure_prefix. cbn [fst].
    rewrite Failed. cbn [bind try_except dispatch existsb].
    rewrite !orb_false_r, IsException.
    destruct (isinstance err RenovasjonConnectionError); [reflexivity|].
    destruct (isinstance err RenovasjonApiError); reflexivity. }
  assert (Kept : data (async_refresh fromisoformat session now self)
                 = data self).
  { unfold async_refresh.
    destruct (_async_update_data fromisoformat session now self)
      as (result, self') eqn:Run.
    assert (E : self' = self) by (unfold _async_update_data in Run; congruence).
    cbn [fst] in Wrapped. rewrite Wrapped, E. reflexivity. }
  split; [exact Wrapped|]. split; [reflexivity|]. split; [reflexivity|].
  split; [exact Kept|].
  intros session0 now0 self0 snapshot Succeeded Before.
  assert (Held : data self = Some snapshot).
  { rewrite Before. unfold async_refresh.
    destruct (_async_update_data fromisoformat session0 now0 self0)
      as (result, self') eqn:Run.
    cbn [fst] in Succeeded. rewrite Succeeded. reflexivity. }
  split; [congruence|].
  intros A query. unfold call_on_data. now rewrite Kept, Held.
Qed.

Lemma failed_refresh_keeps_snapshot_witness :
  let held :=
    async_refresh fromisoformat_basic
      (serving [item "2026-01-08T00:00:00" "Matavfall";
                item "2026-02-05T00:00:00" "Papir"])
      (half_past_ten 2026 1 1) fresh_coordinator in
  raised (fst (_async_update_data fromisoformat_basic timing_out
                 (half_past_ten 2026 1 2) held)) = Some UpdateFailed /\
  call_on_data
    (async_refresh fromisoformat_basic timing_out (half_past_ten 2026 1 2) held)
    (fun snapshot => get_next_disposal snapshot "Papir" (half_past_ten 2026 1 2))
  = Ok (Some (disposal_on 2026 2 5 "Papir")).
Proof.
  cbv zeta.
  destruct (failed_refresh_keeps_snapshot fromisoformat_basic timing_out
              (half_past_ten 2026 1 2)
              (async_refresh fromisoformat_basic
                 (serving [item "2026-01-08T00:00:00" "Matavfall";
                           item "2026-02-05T00:00:00" "Papir"])
                 (half_past_ten 2026 1 1) fresh_coordinator)
              (new_exn RenovasjonConnectionError
                 "Timeout connecting to Renovasjonsportal API"))
    as (Wrapped & _ & _ & _ & After).
  - reflexivity.
  - reflexivity.
  - split; [now rewrite Wrapped|].
    destruct (After
                (serving [item "2026-01-08T00:00:00" "Matavfall";
                          item "2026-02-05T00:00:00" "Papir"])
                (half_past_ten 2026 1 1) fresh_coordinator
                (RenovasjonData_init "8c098e45" "Sigden 6"
                   "Kristiansund kommune"
                   [(JStr "Matavfall", [disposal_on 2026 1 8 "Matavfall"]);
                    (JStr "Papir", [disposal_on 2026 2 5 "Papir"])]
                   (half_past_ten 2026 1 1)))
      as (_ & Query).
    + reflexivity.
    + reflexivity.
    + rewrite Query. reflexivity.
Defined.

(* ================================================================== *)
(** * Further properties of the code *)

(** ** [_request]: the other exceptions *)

Lemma response_error_is_client_error c :
  issubclass c ClientResponseError = true -> issubclass c ClientError = true.
Proof. destruct c; vm_compute; congruence. Qed.

Lemma client_family_is_exception c :
  issubclass c Exception = false ->
  issubclass c RenovasjonConnectionError = false /\
  issubclass c RenovasjonApiError = false.
Proof. destruct c; vm_compute; intros H; split; congruence. Qed.

(** X1. A transport failure that is a [ClientError] but neither a timeout
    nor a response error (a refused connection, a DNS failure) is raised
    as [RenovasjonConnectionError] with the message
    ["Connection error: "] followed by [str(err)] (api.py lines 125-127). *)
Theorem request_connection_error (session : ClientSession) (url : string)
    (err : exn) :
  session (request_for url) = Raise err ->
  isinstance err ClientError = true ->
  isinstance err TimeoutError = false ->
  isinstance err ClientResponseError = false ->
  _request session url
  = Raise (new_exn RenovasjonConnectionError
             ("Connection error: " ++ exn_str err)).
Proof.
  intros Failed Client NoTimeout NoResponse.
  unfold _request. fold (request_for url). rewrite Failed.
  cbn [bind try_except dispatch existsb].
  now rewrite NoTimeout, NoResponse, Client.
Qed.

Lemma request_connection_error_witness :
  _request (fun _ => Raise (new_exn ClientConnectionError "Cannot connect to host"))
    (API_ADDRESS_DETAILS "8c098e45")
  = Raise (new_exn RenovasjonConnectionError
             "Connection error: Cannot connect to host").
Proof.
  apply (request_connection_error
           (fun _ => Raise (new_exn ClientConnectionError "Cannot connect to host"))
           (API_ADDRESS_DETAILS "8c098e45")
           (new_exn ClientConnectionError "Cannot connect to host"));
    reflexivity.
Defined.

(** X2. [_request] catches nothing but [TimeoutError] and [ClientError]:
    an exception of neither class, raised by the transport or while the
    body of an accepted response is decoded (a [ValueError] for a body
    that is not JSON), leaves [_request] as it is, outside the client's
    exception family. *)
Theorem request_passes_other_exceptions (session : ClientSession)
    (url : string) (err : exn) :
  isinstance err TimeoutError = false ->
  isinstance err ClientError = false ->
  (session (request_for url) = Raise err ->
   _request session url = Raise err) /\
  (forall r, session (request_for url) = Ok r -> status r < 400 ->
             json_body r = Raise err -> _request session url = Raise err).
Proof.
  intros NoTimeout NoClient.
  assert (NoResponse : isinstance err ClientResponseError = false).
  { unfold isinstance in *.
    destruct (issubclass (exn_cls err) ClientResponseError) eqn:E;
      [|reflexivity].
    apply response_error_is_client_error in E. congruence. }
  split.
  - intros Failed. unfold _request. fold (request_for url). rewrite Failed.
    cbn [bind try_except dispatch existsb].
    now rewrite NoTimeout, NoResponse, NoClient.
  - intros r Answered Accepted Body.
    rewrite (request_of_response _ _ _ Answered). unfold raise_for_status.
    destruct (Z.leb_spec 400 (status r)); [lia|].
    cbn [bind]. rewrite Body. cbn [try_except dispatch existsb].
    now rewrite NoTimeout, NoResponse, NoClient.
Qed.

Lemma request_passes_other_exceptions_witness :
  _request (always (mkResponse 200 "OK"
                      (Raise (new_exn ValueError "Expecting value"))))
    (API_ADDRESS_DETAILS "8c098e45")
  = Raise (new_exn ValueError "Expecting value").
Proof.
  destruct (request_passes_other_exceptions
              (always (mkResponse 200 "OK"
                         (Raise (new_exn ValueError "Expecting value"))))
              (API_ADDRESS_DETAILS "8c098e45")
              (new_exn ValueError "Expecting value"))
    as (_ & Body); [reflexivity | reflexivity |].
  apply (Body (mkResponse 200 "OK"
                 (Raise (new_exn ValueError "Expecting value"))));
    [reflexivity | simpl; lia | reflexivity].
Defined.

(** X3. The client does not swallow a failed request: the exception
    [_request] raises for the details URL is the one [get_disposals] and
    [get_disposals_by_fraction] raise, and the one it raises for the
    search URL is the one [search_address] raises. *)
Theorem request_failure_propagates
    (fromisoformat : string -> option datetime) (session : ClientSession)
    (err : exn) :
  (forall address_id,
      _request session (API_ADDRESS_DETAILS address_id) = Raise err ->
      get_disposals fromisoformat session address_id = Raise err /\
      get_disposals_by_fraction fromisoformat session address_id = Raise err) /\
  (forall query,
      _request session (API_ADDRESS_SEARCH (quote query "")) = Raise err ->
      search_address session query = Raise err).
Proof.
  split.
  - intros address_id Failed.
    assert (G : get_disposals fromisoformat session address_id = Raise err).
    { unfold get_disposals. cbv zeta. now rewrite Failed. }
    split; [exact G|]. unfold get_disposals_by_fraction. now rewrite G.
  - intros query Failed. unfold search_address. cbv zeta. now rewrite Failed.
Qed.

Lemma request_failure_propagates_witness :
  get_disposals_by_fraction fromisoformat_basic
    (always (mkResponse 404 "Not Found" (Ok (JObj [])))) "8c098e45"
  = Raise (new_exn RenovasjonAddressNotFoundError "Address not found").
Proof.
  destruct (request_failure_propagates fromisoformat_basic
              (always (mkResponse 404 "Not Found" (Ok (JObj []))))
              (new_exn RenovasjonAddressNotFoundError "Address not found"))
    as (Details & _).
  apply Details. reflexivity.
Defined.

(** ** [search_address] *)

Lemma search_results_valid items results :
  Forall2 (fun item r => AddressSearchResult.from_dict item = Ok r)
    items results ->
  search_results items = Ok results.
Proof.
  induction 1 as [| item r items results Hr _ IH]; [reflexivity|].
  cbn [search_results]. rewrite Hr. cbn [bind]. now rewrite IH.
Qed.

Lemma search_results_first_failure before bad after results err :
  Forall2 (fun item r => AddressSearchResult.from_dict item = Ok r)
    before results ->
  AddressSearchResult.from_dict bad = Raise err ->
  search_results (before ++ bad :: after)%list = Raise err.
Proof.
  intros Mapped Bad.
  induction Mapped as [| item r items results Hr _ IH]; cbn [app search_results].
  - now rewrite Bad.
  - rewrite Hr. cbn [bind]. now rewrite IH.
Qed.

Lemma search_address_unfold session query data found :
  _request session (API_ADDRESS_SEARCH (quote query "")) = Ok data ->
  get data "searchResults" (JList []) = Ok (JList found) ->
  search_address session query =
  (results <- search_results found ;;
   alternate <- get data "alternateSearchResults" (JList []) ;;
   items' <- iter alternate ;;
   results' <- search_results items' ;;
   Ok (results ++ results')%list).
Proof.
  intros R G. unfold search_address. cbv zeta.
  rewrite R. cbn [bind]. rewrite G. reflexivity.
Qed.

(** X4. When every item of the two lists of a search response maps,
    [search_address] returns the results of [searchResults] followed by
    those of [alternateSearchResults], each list in its order; a list that
    is absent counts as empty, so the result has as many entries as the
    two lists have items. *)
Theorem search_address_concatenates (session : ClientSession)
    (query : string) (data : json) (found alternate : list json)
    (results results' : list AddressSearchResult.t) :
  _request session (API_ADDRESS_SEARCH (quote query "")) = Ok data ->
  get data "searchResults" (JList []) = Ok (JList found) ->
  get data "alternateSearchResults" (JList []) = Ok (JList alternate) ->
  Forall2 (fun item r => AddressSearchResult.from_dict item = Ok r)
    found results ->
  Forall2 (fun item r => AddressSearchResult.from_dict item = Ok r)
    alternate results' ->
  search_address session query = Ok (results ++ results')%list /\
  List.length (results ++ results')%list
  = (List.length found + List.length alternate)%nat.
Proof.
  intros R G G' M M'. split.
  - rewrite (search_address_unfold _ _ _ _ R G).
    rewrite (search_results_valid _ _ M). cbn [bind]. rewrite G'.
    cbn [bind iter]. now rewrite (search_results_valid _ _ M').
  - now rewrite length_app, (Forall2_length M), (Forall2_length M').
Qed.

Lemma search_address_concatenates_witness :
  search_address
    (always (ok_response
               (JObj [("searchResults",
                       JList [address_item "A" "Sigden 6" "Kristiansund kommune"])])))
    "Sigden 6"
  = Ok [AddressSearchResult.mk (JStr "A") (JStr "Sigden 6")
          (JStr "Kristiansund kommune")].
Proof.
  apply (search_address_concatenates
           (always (ok_response
                      (JObj [("searchResults",
                              JList [address_item "A" "Sigden 6"
                                       "Kristiansund kommune"])])))
           "Sigden 6"
           (JObj [("searchResults",
                   JList [address_item "A" "Sigden 6" "Kristiansund kommune"])])
           [address_item "A" "Sigden 6" "Kristiansund kommune"] []
           [AddressSearchResult.mk (JStr "A") (JStr "Sigden 6")
              (JStr "Kristiansund kommune")] []).
  - reflexivity.
  - reflexivity.
  - reflexivity.
  - repeat constructor.
  - constructor.
Defined.

(** X5. [search_address] has no per-item tolerance: the first item of
    [searchResults] whose mapping raises makes the whole call raise that
    exception, whatever the other items are; for an object without [id] it
    is a [KeyError]. *)
Theorem search_address_fails_on_bad_item (session : ClientSession)
    (query : string) (data : json) (before after : list json) (bad : json)
    (results : list AddressSearchResult.t) (err : exn) :
  _request session (API_ADDRESS_SEARCH (quote query "")) = Ok data ->
  get data "searchResults" (JList [])
  = Ok (JList (before ++ bad :: after)%list) ->
  Forall2 (fun item r => AddressSearchResult.from_dict item = Ok r)
    before results ->
  AddressSearchResult.from_dict bad = Raise err ->
  search_address session query = Raise err /\
  (forall members, bad = JObj members -> assoc "id" members = None ->
                   exn_cls err = KeyError).
Proof.
  intros R G M Bad. split.
  - rewrite (search_address_unfold _ _ _ _ R G).
    now rewrite (search_results_first_failure _ _ _ _ _ M Bad).
  - intros members -> NoId.
    unfold AddressSearchResult.from_dict in Bad. cbn [getitem] in Bad.
    rewrite NoId in Bad. cbn [bind] in Bad. now injection Bad as <-.
Qed.

Lemma search_address_fails_on_bad_item_witness :
  raised (search_address
            (always (ok_response
                       (search_body
                          [address_item "A" "Sigden 6" "Kristiansund kommune";
                           JObj [("title", JStr "Sigden 8")]]
                          [])))
            "Sigden")
  = Some KeyError.
Proof.
  destruct (search_address_fails_on_bad_item
              (always (ok_response
                         (search_body
                            [address_item "A" "Sigden 6" "Kristiansund kommune";
                             JObj [("title", JStr "Sigden 8")]]
                            [])))
              "Sigden"
              (search_body
                 [address_item "A" "Sigden 6" "Kristiansund kommune";
                  JObj [("title", JStr "Sigden 8")]]
                 [])
              [address_item "A" "Sigden 6" "Kristiansund kommune"] []
              (JObj [("title", JStr "Sigden 8")])
              [AddressSearchResult.mk (JStr "A") (JStr "Sigden 6")
                 (JStr "Kristiansund kommune")]
              (new_exn KeyError "'id'"))
    as (Fails & _).
  - reflexivity.
  - reflexivity.
  - repeat constructor.
  - reflexivity.
  - now rewrite Fails.
Defined.

(** ** [WasteDisposal.from_dict] *)

Lemma string_app_assoc (a b c : string) : (a ++ b) ++ c = a ++ (b ++ c).
Proof.
  induction a as [| x a IH]; [reflexivity|]. cbn [append]. now rewrite IH.
Qed.

Lemma replace_app old new s t :
  replace old new (s ++ t) = replace old new s ++ replace old new t.
Proof.
  induction s as [| c s IH]; [reflexivity|].
  cbn [append replace]. rewrite IH.
  destruct (Ascii.eqb c old); [|reflexivity].
  now rewrite string_app_assoc.
Qed.

(** X6. A date written with the [Z] suffix is mapped exactly as the same
    date written with the offset [+00:00]: the two items give the same
    outcome, whatever [fromisoformat] does with the string. *)
Theorem from_dict_Z_is_utc (fromisoformat : string -> option datetime)
    (date_str : string) (rest : list (string * json)) :
  WasteDisposal.from_dict fromisoformat
    (JObj (("date", JStr (date_str ++ "Z")) :: rest))
  = WasteDisposal.from_dict fromisoformat
      (JObj (("date", JStr (date_str ++ "+00:00")) :: rest)).
Proof.
  unfold WasteDisposal.from_dict. cbn [getitem assoc String.eqb Ascii.eqb
    Bool.eqb bind str_replace].
  now rewrite !replace_app.
Qed.

(** X7. An item that is a JSON object can stop the loop of
    [get_disposals] only through a [date] that is not a string: when its
    [date] is absent or a string, the item is mapped or skipped, so that it
    adds one disposal or none and nothing is raised. *)
Theorem object_item_is_never_fatal (fromisoformat : string -> option datetime)
    (members : list (string * json)) :
  (forall v, assoc "date" members = Some v -> exists s, v = JStr s) ->
  exists parsed,
    parse_item fromisoformat (JObj members) = Ok parsed /\
    (List.length parsed <= 1)%nat /\
    (parsed = [] <-> skipped fromisoformat (JObj members)).
Proof.
  intros StringDate. unfold parse_item, skipped, WasteDisposal.from_dict,
    WasteDisposal.parse_date. cbn [getitem get].
  destruct (assoc "date" members) as [v |] eqn:D; cbn [bind].
  - destruct (StringDate v eq_refl) as (s & ->). cbn [str_replace bind].
    destruct (fromisoformat _); cbn [bind].
    + destruct (assoc "fraction" members); cbn [bind].
      * destruct (assoc "description" members), (assoc "symbolId" members);
          cbn; eexists; (split; [reflexivity|]); (split; [cbn [List.length]; lia|]);
          (split; [discriminate | intros [H | H]; discriminate]).
      * cbn. exists []. split; [reflexivity|]. split; [cbn [List.length]; lia|]. tauto.
    + cbn. exists []. split; [reflexivity|]. split; [cbn [List.length]; lia|]. tauto.
  - cbn. exists []. split; [reflexivity|]. split; [cbn [List.length]; lia|]. tauto.
Qed.

Lemma object_item_is_never_fatal_witness :
  exists parsed,
    parse_item fromisoformat_basic
      (JObj [("date", JStr "next week"); ("fraction", JStr "Papir")])
    = Ok parsed /\ (List.length parsed <= 1)%nat.
Proof.
  destruct (object_item_is_never_fatal fromisoformat_basic
              [("date", JStr "next week"); ("fraction", JStr "Papir")])
    as (parsed & Parsed & Short & _).
  - intros v E. injection E as <-. eauto.
  - eauto.
Defined.

(** ** [get_disposals]: what is returned *)

(** X8. A details response without [disposals], or with an empty list,
    is no error: [get_disposals] returns the empty sequence and
    [get_disposals_by_fraction] the empty mapping. *)
Theorem get_disposals_of_nothing
    (fromisoformat : string -> option datetime) (session : ClientSession)
    (address_id : string) (members : list (string * json)) :
  _request session (API_ADDRESS_DETAILS address_id) = Ok (JObj members) ->
  assoc "disposals" members = None \/
  assoc "disposals" members = Some (JList []) ->
  get_disposals fromisoformat session address_id = Ok [] /\
  get_disposals_by_fraction fromisoformat session address_id = Ok [].
Proof.
  intros R Empty.
  assert (G : get (JObj members) "disposals" (JList []) = Ok (JList [])).
  { cbn [get]. now destruct Empty as [-> | ->]. }
  assert (E : get_disposals fromisoformat session address_id = Ok []).
  { now rewrite (get_disposals_unfold _ _ _ _ _ R G). }
  split; [exact E|]. unfold get_disposals_by_fraction. now rewrite E.
Qed.

Lemma get_disposals_of_nothing_witness :
  get_disposals fromisoformat_basic (always (ok_response (JObj []))) "8c098e45"
  = Ok [].
Proof.
  apply (get_disposals_of_nothing fromisoformat_basic
           (always (ok_response (JObj []))) "8c098e45" []).
  - reflexivity.
  - left. reflexivity.
Defined.

Lemma parse_item_Ok fromisoformat item parsed :
  parse_item fromisoformat item = Ok parsed ->
  (exists d, parsed = [d] /\ maps_to fromisoformat item d) \/
  (parsed = [] /\ forall d, ~ maps_to fromisoformat item d).
Proof.
  unfold parse_item, maps_to.
  destruct (WasteDisposal.from_dict fromisoformat item) as [d | e];
    cbn [bind try_except].
  - intros H; injection H as <-. left. eauto.
  - cbn [dispatch]. destruct (existsb (isinstance e) [KeyError; ValueError]);
      [|discriminate].
    intros H; injection H as <-. right. split; [reflexivity | discriminate].
Qed.

Lemma parse_disposals_content fromisoformat items :
  forall parsed,
    parse_disposals fromisoformat items = Ok parsed ->
    (forall d, In d parsed <->
               exists item, In item items /\ maps_to fromisoformat item d) /\
    (List.length parsed <= List.length items)%nat.
Proof.
  induction items as [| item rest IH]; intros parsed.
  - intros H; injection H as <-. split; [|cbn; lia].
    intros d. split; [contradiction | intros (i & [] & _)].
  - rewrite parse_disposals_cons. intros H.
    apply bind_Ok_inv in H as (one & One & H).
    apply bind_Ok_inv in H as (others & Others & H). injection H as <-.
    destruct (IH others Others) as (Content & Short).
    apply parse_item_Ok in One. split.
    + intros d. rewrite in_app_iff, Content. split.
      * intros [I | (i & Ii & M)].
        -- destruct One as [(d' & -> & M) | (-> & _)]; [|contradiction].
           destruct I as [<- | []]. exists item. split; [now left | exact M].
        -- exists i. split; [now right | exact M].
      * intros (i & [<- | Ii] & M).
        -- left. destruct One as [(d' & -> & M') | (_ & None)].
           ++ unfold maps_to in *. left. congruence.
           ++ now destruct (None d).
        -- right. eauto.
    + rewrite length_app. cbn [List.length].
      destruct One as [(d' & -> & _) | (-> & _)]; cbn [List.length]; lia.
Qed.

(** X9. [get_disposals] returns the disposals of the batch and no other:
    a disposal is in the result exactly when it is the mapping of an item
    of the [disposals] list, and the result is never longer than that
    list. *)
Theorem get_disposals_returns_the_mapped_items
    (fromisoformat : string -> option datetime) (session : ClientSession)
    (address_id : string) (data : json) (items : list json)
    (disposals : list WasteDisposal.t) :
  _request session (API_ADDRESS_DETAILS address_id) = Ok data ->
  get data "disposals" (JList []) = Ok (JList items) ->
  get_disposals fromisoformat session address_id = Ok disposals ->
  (forall d, In d disposals <->
             exists item, In item items /\ maps_to fromisoformat item d) /\
  (List.length disposals <= List.length items)%nat.
Proof.
  intros R G Returned.
  rewrite (get_disposals_unfold _ _ _ _ _ R G) in Returned.
  apply bind_Ok_inv in Returned as (parsed & Parsed & Sorted).
  pose proof (sort_perm _ _ _ Sorted) as Perm.
  destruct (parse_disposals_content _ _ _ Parsed) as (Content & Short).
  split.
  - intros d. rewrite <- Content. split; apply Permutation_in;
      [symmetry|]; exact Perm.
  - now rewrite <- (Permutation_length Perm).
Qed.

Lemma get_disposals_returns_the_mapped_items_witness :
  (List.length
     [disposal_on 2026 1 5 "Papir"; disposal_on 2026 1 22 "Restavfall"]
   <= 3)%nat.
Proof.
  apply (get_disposals_returns_the_mapped_items fromisoformat_basic
           (serving [item "2026-01-22T00:00:00" "Restavfall";
                     item "tomorrow" "Matavfall";
                     item "2026-01-05T00:00:00" "Papir"])
           "8c098e45"
           (details_body [item "2026-01-22T00:00:00" "Restavfall";
                          item "tomorrow" "Matavfall";
                          item "2026-01-05T00:00:00" "Papir"])
           [item "2026-01-22T00:00:00" "Restavfall";
            item "tomorrow" "Matavfall";
            item "2026-01-05T00:00:00" "Papir"]);
    reflexivity.
Defined.

(** *** The sort keeps the batch order of equal dates *)

Lemma tuple_lt_irrefl a : tuple_lt a a = false.
Proof.
  induction a as [| x a IH]; [reflexivity|].
  cbn [tuple_lt]. now rewrite Z.ltb_irrefl, Z.eqb_refl, IH.
Qed.

Lemma datetime_eqb_eq a b : datetime_eqb a b = true -> a = b.
Proof.
  unfold datetime_eqb, date_eq.
  destruct a as [[ya ma da] ha mia sa ua oa], b as [[yb mb db] hb mib sb ub ob].
  cbn [dt_date year month day hour minute second microsecond utcoffset].
  intros H.
  repeat match type of H with
         | _ && _ = true => apply andb_true_iff in H as (H & ?)
         end.
  repeat match goal with
         | E : (_ =? _) = true |- _ => apply Z.eqb_eq in E
         end.
  subst.
  destruct oa as [oa |], ob as [ob |]; try discriminate; [|reflexivity].
  match goal with E : (_ =? _) = true |- _ => apply Z.eqb_eq in E end.
  now subst.
Qed.

Lemma datetime_lt_irrefl a b :
  datetime_lt a b = Ok true -> datetime_eqb a b = false.
Proof.
  intros Lt. destruct (datetime_eqb a b) eqn:E; [|reflexivity].
  apply datetime_eqb_eq in E. subst b. unfold datetime_lt in Lt.
  destruct (utcoffset a) as [o |].
  - rewrite Z.eqb_refl, tuple_lt_irrefl in Lt. discriminate.
  - rewrite tuple_lt_irrefl in Lt. discriminate.
Qed.

Lemma insert_dated (x : WasteDisposal.t) l r dt :
  insert WasteDisposal.date x l = Ok r ->
  dated dt r = dated dt (x :: l).
Proof.
  unfold dated. revert r. induction l as [| y l IH]; cbn [insert]; intros r H.
  - now injection H as <-.
  - apply bind_Ok_inv in H as (b & Lt & H). destruct b.
    + apply bind_Ok_inv in H as (r' & Hr & H). injection H as <-.
      cbn [filter]. rewrite (IH r' Hr). cbn [filter].
      apply datetime_lt_irrefl in Lt.
      destruct (datetime_eqb (WasteDisposal.date x) dt) eqn:Ex; [|reflexivity].
      apply datetime_eqb_eq in Ex. rewrite <- Ex. now rewrite Lt.
    + now injection H as <-.
Qed.

Lemma sort_dated (l s : list WasteDisposal.t) dt :
  sort WasteDisposal.date l = Ok s -> dated dt s = dated dt l.
Proof.
  revert s. induction l as [| x l IH]; cbn [sort]; intros s H.
  - now injection H as <-.
  - apply bind_Ok_inv in H as (s' & Hs & H).
    rewrite (insert_dated _ _ _ dt H). unfold dated in *. cbn [filter].
    now rewrite (IH s' Hs).
Qed.

(** X10. The sort of [get_disposals] is stable: for every date, the
    disposals of the result dated exactly so are the mapped items of the
    batch dated so, in their order in the batch. *)
Theorem get_disposals_keeps_order_of_equal_dates
    (fromisoformat : string -> option datetime) (session : ClientSession)
    (address_id : string) (data : json) (items : list json)
    (parsed disposals : list WasteDisposal.t) :
  _request session (API_ADDRESS_DETAILS address_id) = Ok data ->
  get data "disposals" (JList []) = Ok (JList items) ->
  parse_disposals fromisoformat items = Ok parsed ->
  get_disposals fromisoformat session address_id = Ok disposals ->
  forall dt, dated dt disposals = dated dt parsed.
Proof.
  intros R G Parsed Returned dt.
  rewrite (get_disposals_unfold _ _ _ _ _ R G), Parsed in Returned.
  cbn [bind] in Returned. now apply sort_dated.
Qed.

Lemma get_disposals_keeps_order_of_equal_dates_witness :
  dated (midnight 2026 1 5)
    [disposal_on 2026 1 5 "Glass og metallemballasje";
     disposal_on 2026 1 5 "Plastemballasje";
     disposal_on 2026 1 8 "Papir"]
  = [disposal_on 2026 1 5 "Glass og metallemballasje";
     disposal_on 2026 1 5 "Plastemballasje"].
Proof.
  rewrite (get_disposals_keeps_order_of_equal_dates fromisoformat_basic
             (serving [item "2026-01-08T00:00:00" "Papir";
                       item "2026-01-05T00:00:00" "Glass og metallemballasje";
                       item "2026-01-05T00:00:00" "Plastemballasje"])
             "8c098e45"
             (details_body
                [item "2026-01-08T00:00:00" "Papir";
                 item "2026-01-05T00:00:00" "Glass og metallemballasje";
                 item "2026-01-05T00:00:00" "Plastemballasje"])
             [item "2026-01-08T00:00:00" "Papir";
              item "2026-01-05T00:00:00" "Glass og metallemballasje";
              item "2026-01-05T00:00:00" "Plastemballasje"]
             [disposal_on 2026 1 8 "Papir";
              disposal_on 2026 1 5 "Glass og metallemballasje";
              disposal_on 2026 1 5 "Plastemballasje"]);
    reflexivity.
Defined.

(** ** [get_disposals_by_fraction]: the loop as a whole *)

Lemma total_size_cons k (v : list WasteDisposal.t) d :
  total_size ((k, v) :: d) = (List.length v + total_size d)%nat.
Proof. reflexivity. Qed.

Lemma total_size_store_present h k (v old : list WasteDisposal.t) d :
  lookup h d = Some old ->
  (total_size (store h k v d) + List.length old
   = total_size d + List.length v)%nat.
Proof.
  induction d as [| (k', v') d IH]; cbn [lookup store]; [discriminate|].
  destruct (is_key h k'); rewrite !total_size_cons.
  - intros E; injection E as ->. lia.
  - intros E. specialize (IH E). lia.
Qed.

Lemma total_size_store_absent h k (v : list WasteDisposal.t) d :
  lookup h d = None ->
  total_size (store h k v d) = (total_size d + List.length v)%nat.
Proof.
  induction d as [| (k', v') d IH]; cbn [lookup store].
  - intros _. rewrite total_size_cons. unfold total_size. cbn. lia.
  - destruct (is_key h k'); [discriminate|]. rewrite !total_size_cons.
    intros E. rewrite (IH E). lia.
Qed.

(** One turn of the loop on a hashable fraction, from any dict. *)
Lemma add_disposal_hashable by_fraction d h :
  key_of (WasteDisposal.fraction d) = Some h ->
  exists by_fraction',
    add_disposal by_fraction d = Ok by_fraction' /\
    total_size by_fraction' = S (total_size by_fraction) /\
    hashed_keys by_fraction'
    = match lookup h by_fraction with
      | Some _ => hashed_keys by_fraction
      | None => (hashed_keys by_fraction ++ [Some h])%list
      end.
Proof.
  intros K. unfold add_disposal, dict_contains, dict_getitem, dict_setitem, hash.
  rewrite K. cbn [bind].
  destruct (lookup h by_fraction) as [bucket |] eqn:L; cbn [negb bind].
  - rewrite L. cbn [bind]. eexists. split; [reflexivity|]. split.
    + pose proof (total_size_store_present h (WasteDisposal.fraction d)
                    (bucket ++ [d])%list bucket by_fraction L) as S.
      rewrite length_app in S. cbn [List.length] in S. lia.
    + now rewrite hashed_keys_store, L.
  - rewrite lookup_store_same by exact K. cbn [bind app].
    eexists. split; [reflexivity|]. split.
    + pose proof (total_size_store_present h (WasteDisposal.fraction d) [d] []
                    (store h (WasteDisposal.fraction d) [] by_fraction)
                    (lookup_store_same _ _ _ _ K)) as S.
      rewrite (total_size_store_absent h (WasteDisposal.fraction d) []
                 by_fraction L) in S.
      cbn [List.length] in S. lia.
    + rewrite hashed_keys_store, lookup_store_same by exact K.
      now rewrite hashed_keys_store, L.
Qed.

Lemma add_disposal_unhashable by_fraction d :
  key_of (WasteDisposal.fraction d) = None ->
  add_disposal by_fraction d = Raise (new_exn TypeError "unhashable type").
Proof.
  intros K. unfold add_disposal, dict_contains, hash. now rewrite K.
Qed.

Lemma group_disposals_unhashable rest :
  forall by_fraction,
    Exists (fun d => key_of (WasteDisposal.fraction d) = None) rest ->
    group_disposals rest by_fraction
    = Raise (new_exn TypeError "unhashable type").
Proof.
  induction rest as [| d rest IH]; intros by_fraction E;
    [inversion E|].
  cbn [group_disposals].
  destruct (key_of (WasteDisposal.fraction d)) as [h |] eqn:K.
  - destruct (add_disposal_hashable by_fraction d h K) as (by1 & -> & _).
    cbn [bind]. apply IH. inversion E; subst; [congruence | assumption].
  - now rewrite (add_disposal_unhashable _ _ K).
Qed.

Lemma group_disposals_Ok_hashable rest by_fraction by_fraction' :
  group_disposals rest by_fraction = Ok by_fraction' ->
  Forall hashable_fraction rest.
Proof.
  intros Grouped. apply Forall_forall. intros d I. unfold hashable_fraction.
  intros K.
  rewrite (group_disposals_unhashable rest by_fraction) in Grouped;
    [discriminate|].
  apply Exists_exists. eauto.
Qed.

Lemma group_disposals_size rest :
  forall by_fraction by_fraction',
    group_disposals rest by_fraction = Ok by_fraction' ->
    total_size by_fraction'
    = (total_size by_fraction + List.length rest)%nat.
Proof.
  induction rest as [| d rest IH]; intros by_fraction by_fraction' Grouped.
  - injection Grouped as <-. cbn. lia.
  - pose proof (group_disposals_Ok_hashable _ _ _ Grouped) as H.
    inversion H as [| ? ? Hd _]; subst. unfold hashable_fraction in Hd.
    destruct (key_of (WasteDisposal.fraction d)) as [h |] eqn:K; [|congruence].
    destruct (add_disposal_hashable by_fraction d h K) as (by1 & Step & Size & _).
    cbn [group_disposals] in Grouped. rewrite Step in Grouped.
    cbn [bind] in Grouped. rewrite (IH _ _ Grouped), Size.
    cbn [List.length]. lia.
Qed.

(** X11. A disposal whose fraction cannot be a dict key (a JSON list or
    object) makes [get_disposals_by_fraction] raise [TypeError], although
    [get_disposals] returned: no mapping is built. *)
Theorem get_disposals_by_fraction_unhashable
    (fromisoformat : string -> option datetime) (session : ClientSession)
    (address_id : string) (disposals : list WasteDisposal.t)
    (d : WasteDisposal.t) :
  get_disposals fromisoformat session address_id = Ok disposals ->
  In d disposals ->
  key_of (WasteDisposal.fraction d) = None ->
  exists err,
    get_disposals_by_fraction fromisoformat session address_id = Raise err /\
    exn_cls err = TypeError /\
    isinstance err RenovasjonApiError = false.
Proof.
  intros Returned I K. unfold get_disposals_by_fraction.
  rewrite Returned. cbn [bind].
  rewrite group_disposals_unhashable by (apply Exists_exists; eauto).
  eexists. repeat split.
Qed.

Lemma get_disposals_by_fraction_unhashable_witness :
  raised (get_disposals_by_fraction fromisoformat_basic
            (serving [JObj [("date", JStr "2026-01-05T00:00:00");
                            ("fraction", JList [JStr "Papir"])]])
            "8c098e45")
  = Some TypeError.
Proof.
  destruct (get_disposals_by_fraction_unhashable fromisoformat_basic
              (serving [JObj [("date", JStr "2026-01-05T00:00:00");
                              ("fraction", JList [JStr "Papir"])]])
              "8c098e45"
              [WasteDisposal.mk (midnight 2026 1 5) (JList [JStr "Papir"])
                 JNull (JInt 0)]
              (WasteDisposal.mk (midnight 2026 1 5) (JList [JStr "Papir"])
                 JNull (JInt 0)))
    as (err & Raised & Class & _).
  - reflexivity.
  - left. reflexivity.
  - reflexivity.
  - rewrite Raised. cbn [raised]. now rewrite Class.
Defined.

(** X12. When [get_disposals_by_fraction] returns, the buckets hold as
    many disposals as [get_disposals] returned, none is lost and none is
    doubled, and no bucket is empty. *)
Theorem buckets_hold_every_disposal
    (fromisoformat : string -> option datetime) (session : ClientSession)
    (address_id : string) (disposals : list WasteDisposal.t)
    (by_fraction : dict (list WasteDisposal.t)) :
  get_disposals fromisoformat session address_id = Ok disposals ->
  get_disposals_by_fraction fromisoformat session address_id
  = Ok by_fraction ->
  total_size by_fraction = List.length disposals /\
  (forall k bucket, In (k, bucket) by_fraction -> bucket <> []).
Proof.
  intros Returned Grouped. unfold get_disposals_by_fraction in Grouped.
  rewrite Returned in Grouped. cbn [bind] in Grouped.
  split; [exact (group_disposals_size _ _ _ Grouped)|].
  pose proof (group_disposals_Ok_hashable _ _ _ Grouped) as Hashable.
  assert (Empty : groups [] []).
  { split; [constructor | split; [simpl; tauto | reflexivity]]. }
  destruct (group_disposals_groups disposals [] [] Empty Hashable)
    as (m & Grouped' & ND & NN & L).
  assert (m = by_fraction) by congruence. subst m. cbn [app] in L.
  intros k bucket I ->.
  destruct (key_of k) as [h |] eqn:K.
  - pose proof (lookup_In h k [] by_fraction ND I K) as Found.
    rewrite L in Found. destruct (with_key h disposals); discriminate.
  - apply NN. rewrite <- K.
    change (key_of k) with (key_of (fst (k, @nil WasteDisposal.t))).
    now apply (in_map (fun entry => key_of (fst entry))).
Qed.

Lemma buckets_hold_every_disposal_witness :
  total_size
    [(JStr "Matavfall",
      [disposal_on 2026 1 8 "Matavfall"; disposal_on 2026 1 22 "Matavfall"]);
     (JStr "Papir", [disposal_on 2026 2 5 "Papir"])]
  = 3%nat.
Proof.
  apply (buckets_hold_every_disposal fromisoformat_basic
           (serving [item "2026-01-22T00:00:00" "Matavfall";
                     item "2026-02-05T00:00:00" "Papir";
                     item "2026-01-08T00:00:00" "Matavfall"])
           "8c098e45"
           [disposal_on 2026 1 8 "Matavfall"; disposal_on 2026 1 22 "Matavfall";
            disposal_on 2026 2 5 "Papir"]);
    reflexivity.
Defined.

Lemma seen_lookup h seen (by_fraction : dict (list WasteDisposal.t)) :
  hashed_keys by_fraction = map Some seen ->
  existsb (hkey_eqb h) seen
  = match lookup h by_fraction with Some _ => true | None => false end.
Proof.
  intros Keys.
  destruct (lookup h by_fraction) as [bucket |] eqn:L.
  - apply existsb_exists. exists h.
    split; [|now destruct (hkey_eqb_spec h h)].
    destruct (in_dec (fun a b => reflect_dec _ _ (hkey_eqb_spec a b)) h seen)
      as [I | N]; [exact I|].
    assert (lookup h by_fraction = None); [|congruence].
    apply lookup_None. rewrite Keys. intros I. apply in_map_iff in I.
    destruct I as (h' & E & I). congruence.
  - apply lookup_None in L. rewrite Keys in L.
    destruct (existsb (hkey_eqb h) seen) eqn:E; [|reflexivity].
    apply existsb_exists in E as (h' & I & E).
    destruct (hkey_eqb_spec h h'); [subst h'|discriminate].
    exfalso. apply L. now apply in_map.
Qed.

Lemma group_disposals_keys rest :
  forall by_fraction by_fraction' seen,
    group_disposals rest by_fraction = Ok by_fraction' ->
    hashed_keys by_fraction = map Some seen ->
    hashed_keys by_fraction'
    = map Some (seen ++ first_occurrences seen (fraction_keys rest))%list.
Proof.
  induction rest as [| d rest IH]; intros by_fraction by_fraction' seen
    Grouped Keys.
  - injection Grouped as <-. cbn [fraction_keys first_occurrences].
    now rewrite app_nil_r.
  - pose proof (group_disposals_Ok_hashable _ _ _ Grouped) as H.
    inversion H as [| ? ? Hd _]; subst. unfold hashable_fraction in Hd.
    destruct (key_of (WasteDisposal.fraction d)) as [h |] eqn:K; [|congruence].
    destruct (add_disposal_hashable by_fraction d h K)
      as (by1 & Step & _ & Keys1).
    cbn [group_disposals] in Grouped. rewrite Step in Grouped.
    cbn [bind] in Grouped.
    cbn [fraction_keys]. rewrite K. cbn [first_occurrences].
    rewrite (seen_lookup h seen by_fraction Keys).
    destruct (lookup h by_fraction) as [bucket |].
    + apply (IH _ _ seen Grouped). now rewrite Keys1.
    + rewrite (IH _ _ (seen ++ [h])%list Grouped).
      * now rewrite <- app_assoc.
      * rewrite Keys1, Keys, map_app. reflexivity.
Qed.

(** X13. The keys of the mapping come in the order in which the fractions
    first occur in the sequence [get_disposals] returned, each once. *)
Theorem fractions_in_order_of_first_occurrence
    (fromisoformat : string -> option datetime) (session : ClientSession)
    (address_id : string) (disposals : list WasteDisposal.t)
    (by_fraction : dict (list WasteDisposal.t)) :
  get_disposals fromisoformat session address_id = Ok disposals ->
  get_disposals_by_fraction fromisoformat session address_id
  = Ok by_fraction ->
  hashed_keys by_fraction
  = map Some (first_occurrences [] (fraction_keys disposals)).
Proof.
  intros Returned Grouped. unfold get_disposals_by_fraction in Grouped.
  rewrite Returned in Grouped. cbn [bind] in Grouped.
  exact (group_disposals_keys disposals [] by_fraction [] Grouped eq_refl).
Qed.

Lemma fractions_in_order_of_first_occurrence_witness :
  hashed_keys
    [(JStr "Matavfall",
      [disposal_on 2026 1 8 "Matavfall"; disposal_on 2026 1 22 "Matavfall"]);
     (JStr "Papir", [disposal_on 2026 2 5 "Papir"])]
  = [Some (HStr "Matavfall"); Some (HStr "Papir")].
Proof.
  rewrite (fractions_in_order_of_first_occurrence fromisoformat_basic
             (serving [item "2026-01-22T00:00:00" "Matavfall";
                       item "2026-02-05T00:00:00" "Papir";
                       item "2026-01-08T00:00:00" "Matavfall"])
             "8c098e45"
             [disposal_on 2026 1 8 "Matavfall";
              disposal_on 2026 1 22 "Matavfall";
              disposal_on 2026 2 5 "Papir"]);
    reflexivity.
Defined.

(** ** The queries, together *)

Lemma first_on_or_after_head now disposals :
  first_on_or_after now disposals
  = hd_error (filter (on_or_after now) disposals).
Proof.
  induction disposals as [| d rest IH]; [reflexivity|].
  cbn [first_on_or_after filter]. now destruct (on_or_after now d).
Qed.

Lemma slice_to_prefix {A : Type} (l : list A) limit :
  exists rest, l = (slice_to l limit ++ rest)%list.
Proof.
  unfold slice_to. destruct (0 <=? limit); eexists; symmetry;
    apply firstn_skipn.
Qed.

(** X14. [get_upcoming_disposals] returns a leading part of the entries
    of the fraction that are on or after today, in their order: every
    entry returned is one of the fraction's and is not before today; with
    a limit of zero or more at most [limit] entries are returned, and all
    of them when there are no more than [limit]. *)
Theorem upcoming_disposals_are_a_prefix
    (self : RenovasjonData) (fraction : string) (limit : Z) (now : datetime) :
  let entries := dict_get (disposals_by_fraction self) fraction [] in
  let upcoming := get_upcoming_disposals self fraction limit now in
  (forall d, In d upcoming -> In d entries /\ on_or_after now d = true) /\
  (exists rest, filter (on_or_after now) entries = (upcoming ++ rest)%list) /\
  (0 <= limit -> Z.of_nat (List.length upcoming) <= limit) /\
  (Z.of_nat (List.length (filter (on_or_after now) entries)) <= limit ->
   upcoming = filter (on_or_after now) entries).
Proof.
  cbv zeta. unfold get_upcoming_disposals.
  set (entries := dict_get (disposals_by_fraction self) fraction []).
  set (kept := filter (on_or_after now) entries).
  destruct (slice_to_prefix kept limit) as (rest & Prefix).
  split; [|split; [|split]].
  - intros d I. apply filter_In. fold kept. rewrite Prefix.
    apply in_or_app. now left.
  - now exists rest.
  - intros Positive. unfold slice_to.
    destruct (Z.leb_spec 0 limit); [|lia].
    pose proof (firstn_le_length (Z.to_nat limit) kept). lia.
  - intros Few. unfold slice_to.
    destruct (Z.leb_spec 0 limit); [|lia].
    apply firstn_all2. lia.
Qed.

Lemma upcoming_disposals_are_a_prefix_witness :
  Z.of_nat
    (List.length
       (get_upcoming_disposals
          (snapshot_of
             [(JStr "Restavfall",
               [disposal_on 2026 1 7 "Restavfall";
                disposal_on 2026 1 8 "Restavfall";
                disposal_on 2026 1 22 "Restavfall"])])
          "Restavfall" 1 (half_past_ten 2026 1 8)))
  <= 1.
Proof.
  apply (upcoming_disposals_are_a_prefix
           (snapshot_of
              [(JStr "Restavfall",
                [disposal_on 2026 1 7 "Restavfall";
                 disposal_on 2026 1 8 "Restavfall";
                 disposal_on 2026 1 22 "Restavfall"])])
           "Restavfall" 1 (half_past_ten 2026 1 8)).
  lia.
Defined.

(** X15. With a limit of one or more, the next disposal is the first of
    the upcoming ones: [get_next_disposal] is none exactly when
    [get_upcoming_disposals] is empty, and is its first entry otherwise. *)
Theorem next_disposal_heads_the_upcoming
    (self : RenovasjonData) (fraction : string) (limit : Z) (now : datetime) :
  1 <= limit ->
  get_next_disposal self fraction now
  = hd_error (get_upcoming_disposals self fraction limit now).
Proof.
  intros Positive. unfold get_next_disposal, get_upcoming_disposals, slice_to.
  rewrite first_on_or_after_head.
  destruct (Z.leb_spec 0 limit); [|lia].
  destruct (Z.to_nat limit) as [| n] eqn:E; [lia|].
  now destruct (filter _ _).
Qed.

Lemma next_disposal_heads_the_upcoming_witness :
  get_next_disposal
    (snapshot_of
       [(JStr "Restavfall",
         [disposal_on 2026 1 7 "Restavfall"; disposal_on 2026 1 22 "Restavfall"])])
    "Restavfall" (half_past_ten 2026 1 8)
  = hd_error
      (get_upcoming_disposals
         (snapshot_of
            [(JStr "Restavfall",
              [disposal_on 2026 1 7 "Restavfall";
               disposal_on 2026 1 22 "Restavfall"])])
         "Restavfall" 5 (half_past_ten 2026 1 8)).
Proof.
  apply (next_disposal_heads_the_upcoming
           (snapshot_of
              [(JStr "Restavfall",
                [disposal_on 2026 1 7 "Restavfall";
                 disposal_on 2026 1 22 "Restavfall"])])
           "Restavfall" 5 (half_past_ten 2026 1 8)).
  lia.
Defined.

Lemma date_lt_total a b :
  date_lt a b = false -> date_lt b a = false ->
  year a = year b /\ month a = month b /\ day a = day b.
Proof.
  intros H1 H2.
  assert (N1 : ~ date_lt a b = true) by congruence.
  assert (N2 : ~ date_lt b a = true) by congruence.
  rewrite date_lt_spec in N1, N2. lia.
Qed.

Lemma date_ge_toordinal a b :
  valid_date a -> valid_date b -> date_ge a b = true ->
  toordinal b <= toordinal a.
Proof.
  intros Va Vb. unfold date_ge. rewrite negb_true_iff. intros N.
  destruct (date_lt b a) eqn:E.
  - apply date_lt_toordinal in E; auto. lia.
  - destruct (date_lt_total a b N E) as (Ey & Em & Ed).
    unfold toordinal. rewrite Ey, Em, Ed. lia.
Qed.

Lemma date_eq_toordinal a b :
  valid_date a -> valid_date b ->
  date_eq a b = true <-> toordinal a = toordinal b.
Proof.
  intros Va Vb. unfold date_eq. rewrite !andb_true_iff, !Z.eqb_eq. split.
  - intros ((Ey & Em) & Ed). unfold toordinal. now rewrite Ey, Em, Ed.
  - intros E.
    destruct (date_lt a b) eqn:L1;
      [apply date_lt_toordinal in L1; auto; lia|].
    destruct (date_lt b a) eqn:L2;
      [apply date_lt_toordinal in L2; auto; lia|].
    destruct (date_lt_total a b L1 L2) as (Ey & Em & Ed). auto.
Qed.

Lemma first_on_or_after_In now disposals d :
  first_on_or_after now disposals = Some d ->
  In d disposals /\ on_or_after now d = true.
Proof.
  induction disposals as [| x rest IH]; cbn [first_on_or_after];
    [discriminate|].
  destruct (on_or_after now x) eqn:E.
  - intros H; injection H as <-. split; [now left | exact E].
  - intros H. destruct (IH H). split; [now right | assumption].
Qed.

(** X16. When [today] is the day of [now] and the dates are valid,
    [get_days_until] is never negative. *)
Theorem days_until_is_not_negative
    (self : RenovasjonData) (fraction : string) (now : datetime) (n : Z) :
  valid_date (datetime_date now) ->
  Forall (fun d => valid_date (day_of d))
    (dict_get (disposals_by_fraction self) fraction []) ->
  get_days_until self fraction now (datetime_date now) = Some n ->
  0 <= n.
Proof.
  intros Vnow Valid. unfold get_days_until, get_next_disposal.
  destruct (first_on_or_after now _) as [d |] eqn:Next; [|discriminate].
  intros H; injection H as <-.
  apply first_on_or_after_In in Next as (I & Upcoming).
  rewrite Forall_forall in Valid. specialize (Valid d I).
  unfold date_sub_days. unfold on_or_after in Upcoming.
  pose proof (date_ge_toordinal _ _ Valid Vnow Upcoming) as Le.
  unfold day_of in Le. lia.
Qed.

Lemma days_until_is_not_negative_witness :
  0 <= 14.
Proof.
  apply (days_until_is_not_negative
           (snapshot_of
              [(JStr "Restavfall",
                [disposal_on 2026 1 7 "Restavfall";
                 disposal_on 2026 1 22 "Restavfall"])])
           "Restavfall" (half_past_ten 2026 1 8) 14).
  - vm_compute. repeat split; discriminate.
  - repeat (apply Forall_cons; [vm_compute; repeat split; discriminate|]).
    apply Forall_nil.
  - reflexivity.
Defined.

(** X17. With a snapshot held and valid dates, the binary sensor is on
    exactly when [get_days_until] is [0]: [is_on] is true if and only if
    the next disposal is dated today. *)
Theorem is_on_when_zero_days
    (coordinator : RenovasjonCoordinator) (snapshot : RenovasjonData)
    (fraction : string) (now : datetime) (today : date) :
  data coordinator = Some snapshot ->
  valid_date today ->
  Forall (fun d => valid_date (day_of d))
    (dict_get (disposals_by_fraction snapshot) fraction []) ->
  (is_on coordinator fraction now today = Ok (Some true) <->
   get_days_until snapshot fraction now today = Some 0) /\
  (is_on coordinator fraction now today = Ok (Some false) <->
   get_days_until snapshot fraction now today <> Some 0).
Proof.
  intros Held Vtoday Valid.
  unfold is_on, call_on_data, get_days_until. rewrite Held. cbn [bind].
  unfold get_next_disposal.
  destruct (first_on_or_after now _) as [d |] eqn:Next.
  - apply first_on_or_after_In in Next as (I & _).
    rewrite Forall_forall in Valid. specialize (Valid d I).
    pose proof (date_eq_toordinal _ _ Valid Vtoday) as Eq.
    unfold day_of in Eq. unfold date_sub_days.
    destruct (date_eq (datetime_date (WasteDisposal.date d)) today) eqn:E.
    + assert (toordinal (datetime_date (WasteDisposal.date d))
              = toordinal today) by now apply Eq.
      split; split; intros H0; try reflexivity; try discriminate.
      * f_equal. lia.
      * exfalso. apply H0. f_equal. lia.
    + assert (toordinal (datetime_date (WasteDisposal.date d))
              <> toordinal today).
      { intros T. apply Eq in T. congruence. }
      split; split; intros H0; try reflexivity; try discriminate.
      * injection H0 as H0. lia.
      * intros H1. injection H1 as H1. lia.
  - split; split; intros H0; try reflexivity; discriminate.
Qed.

Lemma is_on_when_zero_days_witness :
  is_on
    (mkCoordinator "8c098e45" "Sigden 6" "Kristiansund kommune"
       (Some (snapshot_of
                [(JStr "Restavfall", [disposal_on 2026 1 8 "Restavfall"])]))
       None)
    "Restavfall" (half_past_ten 2026 1 8) (mkDate 2026 1 8)
  = Ok (Some true).
Proof.
  apply (is_on_when_zero_days
           (mkCoordinator "8c098e45" "Sigden 6" "Kristiansund kommune"
              (Some (snapshot_of
                       [(JStr "Restavfall",
                         [disposal_on 2026 1 8 "Restavfall"])]))
              None)
           (snapshot_of
              [(JStr "Restavfall", [disposal_on 2026 1 8 "Restavfall"])])
           "Restavfall" (half_past_ten 2026 1 8) (mkDate 2026 1 8)).
  - reflexivity.
  - vm_compute. repeat split; discriminate.
  - repeat (apply Forall_cons; [vm_compute; repeat split; discriminate|]).
    apply Forall_nil.
  - reflexivity.
Defined.

(** X18. With a snapshot held, the sensor's value is the day of the next
    disposal: it is never a day before today, and it is none exactly when
    [get_days_until] is none. *)
Theorem native_value_is_the_next_day
    (coordinator : RenovasjonCoordinator) (snapshot : RenovasjonData)
    (fraction : string) (now : datetime) (today : date) :
  data coordinator = Some snapshot ->
  native_value coordinator fraction now
  = Ok (option_map day_of (get_next_disposal snapshot fraction now)) /\
  (forall d, native_value coordinator fraction now = Ok (Some d) ->
             date_lt d (datetime_date now) = false) /\
  (native_value coordinator fraction now = Ok None <->
   get_days_until snapshot fraction now today = None).
Proof.
  intros Held. unfold native_value, call_on_data, get_days_until.
  rewrite Held. cbn [bind]. unfold get_next_disposal.
  destruct (first_on_or_after now _) as [d |] eqn:Next; cbn [option_map].
  - split; [reflexivity|]. split; [|split; discriminate].
    intros d' H. injection H as <-.
    apply first_on_or_after_In in Next as (_ & Upcoming).
    unfold on_or_after, date_ge in Upcoming. now apply negb_true_iff.
  - split; [reflexivity|]. split; [discriminate | tauto].
Qed.

Lemma native_value_is_the_next_day_witness :
  native_value
    (mkCoordinator "8c098e45" "Sigden 6" "Kristiansund kommune"
       (Some (snapshot_of
                [(JStr "Restavfall",
                  [disposal_on 2026 1 7 "Restavfall";
                   disposal_on 2026 1 22 "Restavfall"])]))
       None)
    "Restavfall" (half_past_ten 2026 1 8)
  = Ok (Some (mkDate 2026 1 22)).
Proof.
  destruct (native_value_is_the_next_day
              (mkCoordinator "8c098e45" "Sigden 6" "Kristiansund kommune"
                 (Some (snapshot_of
                          [(JStr "Restavfall",
                            [disposal_on 2026 1 7 "Restavfall";
                             disposal_on 2026 1 22 "Restavfall"])]))
                 None)
              (snapshot_of
                 [(JStr "Restavfall",
                   [disposal_on 2026 1 7 "Restavfall";
                    disposal_on 2026 1 22 "Restavfall"])])
              "Restavfall" (half_past_ten 2026 1 8) (mkDate 2026 1 8))
    as (Value & _).
  - reflexivity.
  - rewrite Value. reflexivity.
Defined.

(** ** [_async_update_data]: the snapshot it builds *)

Lemma from_dict_date fromisoformat item d :
  WasteDisposal.from_dict fromisoformat item = Ok d ->
  exists s, fromisoformat s = Some (WasteDisposal.date d).
Proof.
  unfold WasteDisposal.from_dict, WasteDisposal.parse_date. intros H.
  apply bind_Ok_inv in H as (date_str & _ & H).
  apply bind_Ok_inv in H as (replaced & _ & H).
  apply bind_Ok_inv in H as (dt & Parsed & H).
  apply bind_Ok_inv in H as (fraction & _ & H).
  apply bind_Ok_inv in H as (description & _ & H).
  apply bind_Ok_inv in H as (symbol_id & _ & H).
  injection H as <-. cbn [WasteDisposal.date].
  exists replaced. destruct (fromisoformat replaced); [|discriminate].
  now injection Parsed as ->.
Qed.

Lemma returned_disposals_valid fromisoformat session address_id disposals :
  (forall s dt, fromisoformat s = Some dt -> valid_datetime dt) ->
  get_disposals fromisoformat session address_id = Ok disposals ->
  Forall (fun d => valid_datetime (WasteDisposal.date d)) disposals.
Proof.
  intros Valid Returned. unfold get_disposals in Returned. cbv zeta in Returned.
  apply bind_Ok_inv in Returned as (data & _ & Returned).
  apply bind_Ok_inv in Returned as (listed & _ & Returned).
  apply bind_Ok_inv in Returned as (items & _ & Returned).
  apply bind_Ok_inv in Returned as (parsed & Parsed & Sorted).
  destruct (parse_disposals_content _ _ _ Parsed) as (Content & _).
  apply Forall_forall. intros d I.
  apply (Permutation_in d (Permutation_sym (sort_perm _ _ _ Sorted))) in I.
  apply Content in I as (item & _ & Mapped).
  destruct (from_dict_date _ _ _ Mapped) as (s & Parsed').
  exact (Valid _ _ Parsed').
Qed.

Lemma update_Ok_inv fromisoformat session now self snapshot :
  fst (_async_update_data fromisoformat session now self) = Ok snapshot ->
  exists by_fraction,
    get_disposals_by_fraction fromisoformat session (_address_id self)
    = Ok by_fraction /\
    snapshot = RenovasjonData_init (_address_id self) (_address_name self)
                 (_municipality self) by_fraction now.
Proof.
  unfold _async_update_data. cbn [fst].
  destruct (get_disposals_by_fraction fromisoformat session (_address_id self))
    as [by_fraction | err]; cbn [bind try_except].
  - intros H; injection H as <-. eauto.
  - cbn [dispatch existsb].
    destruct (isinstance err RenovasjonConnectionError); [discriminate|].
    destruct (isinstance err RenovasjonApiError); [discriminate|].
    destruct (isinstance err Exception); discriminate.
Qed.

(** X19. A snapshot that [_async_update_data] returns carries the
    coordinator's address id, name and municipality and the time of the
    refresh, and (for a [fromisoformat] that yields valid datetimes) keeps
    the invariant of the mapping: no bucket is empty, every bucket is sorted
    by date, and each disposal is under the key of its fraction. *)
Theorem update_builds_sorted_buckets
    (fromisoformat : string -> option datetime) (session : ClientSession)
    (now : datetime) (self : RenovasjonCoordinator)
    (snapshot : RenovasjonData) :
  (forall s dt, fromisoformat s = Some dt -> valid_datetime dt) ->
  fst (_async_update_data fromisoformat session now self) = Ok snapshot ->
  address_id snapshot = _address_id self /\
  address_name snapshot = _address_name self /\
  municipality snapshot = _municipality self /\
  last_update snapshot = now /\
  (forall k bucket, In (k, bucket) (disposals_by_fraction snapshot) ->
     bucket <> [] /\ sorted_by_date bucket /\
     forall d, In d bucket -> key_of (WasteDisposal.fraction d) = key_of k).
Proof.
  intros Valid Updated.
  apply update_Ok_inv in Updated as (by_fraction & Grouped & ->).
  cbn [RenovasjonData_init address_id address_name municipality last_update
       disposals_by_fraction].
  repeat (split; [reflexivity|]).
  unfold get_disposals_by_fraction in Grouped.
  apply bind_Ok_inv in Grouped as (disposals & Returned & Grouped).
  pose proof (returned_disposals_valid _ _ _ _ Valid Returned) as Vs.
  pose proof (returned_disposals_sorted _ _ _ _ Returned) as Sorted.
  pose proof (group_disposals_Ok_hashable _ _ _ Grouped) as Hashable.
  assert (Empty : groups [] []).
  { split; [constructor | split; [simpl; tauto | reflexivity]]. }
  destruct (group_disposals_groups disposals [] [] Empty Hashable)
    as (m & Grouped' & ND & NN & L).
  assert (m = by_fraction) by congruence. subst m. cbn [app] in L.
  intros k bucket I.
  destruct (key_of k) as [h |] eqn:K.
  - pose proof (lookup_In h k bucket by_fraction ND I K) as Found.
    rewrite L in Found.
    assert (E : bucket = with_key h disposals /\ bucket <> []).
    { destruct (with_key h disposals) as [| x l]; [discriminate|].
      injection Found as <-. split; [reflexivity | discriminate]. }
    destruct E as (-> & NonEmpty). split; [exact NonEmpty|]. split.
    + now apply sorted_by_date_filter.
    + intros d Id. apply filter_In in Id as (_ & Key).
      now apply is_key_iff in Key.
  - exfalso. apply NN. rewrite <- K.
    change (key_of k) with (key_of (fst (k, bucket))).
    now apply (in_map (fun entry => key_of (fst entry))).
Qed.

Lemma digit_bounds c v : digit c = Some v -> 0 <= v <= 9.
Proof.
  unfold digit. destruct (_ && _) eqn:E; [|discriminate].
  intros H; injection H as <-.
  apply andb_true_iff in E as (L & U).
  apply Z.leb_le in L, U. lia.
Qed.

Lemma read_digits_bounds n :
  forall acc s v rest,
    read_digits n acc s = Some (v, rest) -> 0 <= acc ->
    0 <= v < (acc + 1) * 10 ^ Z.of_nat n.
Proof.
  induction n as [| n IH]; intros acc s v rest H Pos.
  - cbn in H. injection H as <- _. cbn. lia.
  - cbn [read_digits] in H. destruct s as [| c s]; [discriminate|].
    destruct (digit c) as [x |] eqn:D; [|discriminate].
    apply digit_bounds in D. apply IH in H; [|lia].
    rewrite Nat2Z.inj_succ, Z.pow_succ_r by lia. nia.
Qed.

Lemma obind_Some {A B : Type} (m : option A) (k : A -> option B) (b : B) :
  obind m k = Some b -> exists a, m = Some a /\ k a = Some b.
Proof. destruct m as [a |]; [eauto | discriminate]. Qed.

Lemma read_time_valid d s dt :
  valid_date d -> read_time d s = Some dt -> valid_datetime dt.
Proof.
  intros Vd H. unfold read_time in H.
  apply obind_Some in H as ((h & s1) & Eh & H).
  apply obind_Some in H as (s2 & _ & H).
  apply obind_Some in H as ((mi & s3) & Emi & H).
  apply obind_Some in H as (s4 & _ & H).
  apply obind_Some in H as ((sec & s5) & Esec & H).
  destruct ((h <? 24) && (mi <? 60) && (sec <? 60)) eqn:Range;
    [|discriminate H].
  apply andb_true_iff in Range as (Range & Rs).
  apply andb_true_iff in Range as (Rh & Rm).
  apply Z.ltb_lt in Rh, Rm, Rs.
  apply read_digits_bounds in Eh, Emi, Esec; try lia.
  assert (V : forall o, valid_datetime (mkDatetime d h mi sec 0 o)).
  { intros o. unfold valid_datetime. cbn. repeat split; try lia; apply Vd. }
  destruct s5 as [| sign s5]; [injection H as <-; apply V|].
  apply obind_Some in H as (sg & _ & H).
  apply obind_Some in H as ((oh & s6) & _ & H).
  apply obind_Some in H as (s7 & _ & H).
  apply obind_Some in H as ((om & s8) & _ & H).
  destruct s8; [|discriminate H].
  destruct ((oh <? 24) && (om <? 60)); [|discriminate H].
  injection H as <-. apply V.
Qed.

Lemma fromisoformat_basic_valid s dt :
  fromisoformat_basic s = Some dt -> valid_datetime dt.
Proof.
  intros H. unfold fromisoformat_basic in H.
  apply obind_Some in H as ((y & s1) & Ey & H).
  apply obind_Some in H as (s2 & _ & H).
  apply obind_Some in H as ((m & s3) & _ & H).
  apply obind_Some in H as (s4 & _ & H).
  apply obind_Some in H as ((d & s5) & _ & H).
  destruct ((1 <=? y) && (1 <=? m) && (m <=? 12) && (1 <=? d)
            && (d <=? _days_in_month y m)) eqn:Range; [|discriminate H].
  apply andb_true_iff in Range as (Range & Rd).
  apply andb_true_iff in Range as (Range & Rd1).
  apply andb_true_iff in Range as (Range & Rm).
  apply andb_true_iff in Range as (Ry & Rm1).
  apply Z.leb_le in Ry, Rm1, Rm, Rd1, Rd.
  apply read_digits_bounds in Ey; [|lia].
  assert (Vd : valid_date (mkDate y m d)).
  { unfold valid_date. cbn [year month day]. cbn in Ey. lia. }
  destruct s5 as [| sep s5].
  - injection H as <-. unfold valid_datetime. cbn. repeat split; try lia;
      apply Vd.
  - exact (read_time_valid _ _ _ Vd H).
Qed.

Lemma update_builds_sorted_buckets_witness :
  sorted_by_date
    [disposal_on 2026 1 8 "Matavfall"; disposal_on 2026 1 22 "Matavfall"].
Proof.
  destruct (update_builds_sorted_buckets fromisoformat_basic
              (serving [item "2026-01-22T00:00:00" "Matavfall";
                        item "2026-02-05T00:00:00" "Papir";
                        item "2026-01-08T00:00:00" "Matavfall"])
              (half_past_ten 2026 1 1) fresh_coordinator
              (RenovasjonData_init "8c098e45" "Sigden 6" "Kristiansund kommune"
                 [(JStr "Matavfall",
                   [disposal_on 2026 1 8 "Matavfall";
                    disposal_on 2026 1 22 "Matavfall"]);
                  (JStr "Papir", [disposal_on 2026 2 5 "Papir"])]
                 (half_past_ten 2026 1 1)))
    as (_ & _ & _ & _ & Buckets).
  - exact fromisoformat_basic_valid.
  - reflexivity.
  - destruct (Buckets (JStr "Matavfall")
                [disposal_on 2026 1 8 "Matavfall";
                 disposal_on 2026 1 22 "Matavfall"])
      as (_ & Sorted & _); [left; reflexivity | exact Sorted].
Defined.

(** X20. [_async_update_data] wraps exceptions of class [Exception]
    only: an exception of the client call that is a [BaseException] and
    not an [Exception] (a cancellation) leaves it as it is. *)
Theorem update_lets_base_exceptions_through
    (fromisoformat : string -> option datetime) (session : ClientSession)
    (now : datetime) (self : RenovasjonCoordinator) (err : exn) :
  get_disposals_by_fraction fromisoformat session (_address_id self)
  = Raise err ->
  isinstance err Exception = false ->
  fst (_async_update_data fromisoformat session now self) = Raise err.
Proof.
  intros Failed NotException.
  destruct (client_family_is_exception (exn_cls err) NotException)
    as (NoConnection & NoApi).
  unfold _async_update_data. cbn [fst]. rewrite Failed.
  cbn [bind try_except dispatch existsb]. unfold isinstance in *.
  now rewrite NoConnection, NoApi, NotException.
Qed.

Lemma update_lets_base_exceptions_through_witness :
  fst (_async_update_data fromisoformat_basic
         (fun _ => Raise (new_exn CancelledError ""))
         (half_past_ten 2026 1 2) fresh_coordinator)
  = Raise (new_exn CancelledError "").
Proof.
  apply (update_lets_base_exceptions_through fromisoformat_basic
           (fun _ => Raise (new_exn CancelledError ""))
           (half_past_ten 2026 1 2) fresh_coordinator
           (new_exn CancelledError ""));
    reflexivity.
Defined.

(** ** [extra_state_attributes] *)

Lemma on_or_after_day now now' d :
  datetime_date now' = datetime_date now ->
  on_or_after now' d = on_or_after now d.
Proof. unfold on_or_after. now intros ->. Qed.

Lemma upcoming_day self fraction limit now now' :
  datetime_date now' = datetime_date now ->
  get_upcoming_disposals self fraction limit now'
  = get_upcoming_disposals self fraction limit now.
Proof.
  intros E. unfold get_upcoming_disposals. f_equal.
  apply filter_ext. intros d. now apply on_or_after_day.
Qed.

Lemma next_day_reading self fraction now now' :
  datetime_date now' = datetime_date now ->
  get_next_disposal self fraction now' = get_next_disposal self fraction now.
Proof. intros E. unfold get_next_disposal. now apply first_on_or_after_day. Qed.

Lemma next_is_first_of_five self fraction now :
  get_next_disposal self fraction now
  = hd_error (get_upcoming_disposals self fraction 5 now).
Proof.
  unfold get_next_disposal, get_upcoming_disposals, slice_to.
  rewrite first_on_or_after_head. cbn. now destruct (filter _ _).
Qed.

(** X21. The state attributes of a sensor: without a snapshot they are
    the fraction alone.  With a snapshot, and the clock read on one day
    throughout, they are the fraction, the address and the municipality,
    followed by [days_until], [next_date] and [upcoming_dates] when the
    fraction has a next disposal and by nothing otherwise: the three come
    together or not at all. *)
Theorem attributes_come_together
    (coordinator : RenovasjonCoordinator) (fraction : string)
    (now1 : datetime) (today : date) (now2 now3 : datetime) :
  (data coordinator = None ->
   extra_state_attributes coordinator fraction now1 today now2 now3
   = [(ATTR_FRACTION, JStr fraction)]) /\
  (forall snapshot,
      data coordinator = Some snapshot ->
      datetime_date now2 = datetime_date now1 ->
      datetime_date now3 = datetime_date now1 ->
      attr_keys
        (extra_state_attributes coordinator fraction now1 today now2 now3)
      = ([ATTR_FRACTION; ATTR_ADDRESS; ATTR_MUNICIPALITY]
         ++ match get_next_disposal snapshot fraction now1 with
            | Some _ => [ATTR_DAYS_UNTIL; ATTR_NEXT_DATE; ATTR_UPCOMING_DATES]
            | None => []
            end)%list).
Proof.
  split.
  - intros Absent. unfold extra_state_attributes. now rewrite Absent.
  - intros snapshot Held Day2 Day3. unfold extra_state_attributes.
    rewrite Held. cbv zeta. unfold get_days_until.
    rewrite (next_day_reading snapshot fraction now1 now2 Day2).
    rewrite (upcoming_day snapshot fraction 5 now1 now3 Day3).
    pose proof (next_is_first_of_five snapshot fraction now1) as Head.
    destruct (get_next_disposal snapshot fraction now1) as [next |].
    + destruct (get_upcoming_disposals snapshot fraction 5 now1)
        as [| first others]; [discriminate Head|].
      reflexivity.
    + destruct (get_upcoming_disposals snapshot fraction 5 now1)
        as [| first others]; [reflexivity | discriminate Head].
Qed.

Lemma attributes_come_together_witness :
  attr_keys
    (extra_state_attributes
       (mkCoordinator "8c098e45" "Sigden 6" "Kristiansund kommune"
          (Some (snapshot_of
                   [(JStr "Restavfall",
                     [disposal_on 2026 1 7 "Restavfall";
                      disposal_on 2026 1 22 "Restavfall"])]))
          None)
       "Restavfall" (half_past_ten 2026 1 8) (mkDate 2026 1 8)
       (half_past_ten 2026 1 8) (half_past_ten 2026 1 8))
  = [ATTR_FRACTION; ATTR_ADDRESS; ATTR_MUNICIPALITY; ATTR_DAYS_UNTIL;
     ATTR_NEXT_DATE; ATTR_UPCOMING_DATES].
Proof.
  destruct (attributes_come_together
              (mkCoordinator "8c098e45" "Sigden 6" "Kristiansund kommune"
                 (Some (snapshot_of
                          [(JStr "Restavfall",
                            [disposal_on 2026 1 7 "Restavfall";
                             disposal_on 2026 1 22 "Restavfall"])]))
                 None)
              "Restavfall" (half_past_ten 2026 1 8) (mkDate 2026 1 8)
              (half_past_ten 2026 1 8) (half_past_ten 2026 1 8))
    as (_ & Held).
  rewrite (Held (snapshot_of
                   [(JStr "Restavfall",
                     [disposal_on 2026 1 7 "Restavfall";
                      disposal_on 2026 1 22 "Restavfall"])]));
    reflexivity.
Defined.

(** ** The search URL *)

Lemma string_app_inv_head (p a b : string) : p ++ a = p ++ b -> a = b.
Proof.
  induction p as [| c p IH]; cbn [append]; intros H; [exact H|].
  injection H as H. now apply IH.
Qed.

Lemma percent_decode_quote query : percent_decode (quote query "") = query.
Proof.
  induction query as [| b query IH]; [reflexivity|].
  cbn [quote]. now rewrite percent_decode_quoter, IH.
Qed.

(** X22. Two different queries are never sent to the same URL: the
    search URL determines the query. *)
Theorem search_url_determines_query (query query' : string) :
  query <> query' ->
  API_ADDRESS_SEARCH (quote query "") <> API_ADDRESS_SEARCH (quote query' "").
Proof.
  unfold API_ADDRESS_SEARCH. intros Different H. apply Different.
  apply string_app_inv_head, string_app_inv_head in H.
  rewrite <- (percent_decode_quote query), <- (percent_decode_quote query').
  now rewrite H.
Qed.

Lemma search_url_determines_query_witness :
  API_ADDRESS_SEARCH (quote "Storgata 1" "")
  <> API_ADDRESS_SEARCH (quote "Storgata%201" "").
Proof.
  apply (search_url_determines_query "Storgata 1" "Storgata%201").
  discriminate.
Defined.
